(** * Products API (server.js): a shallow embedding and its properties

    The service keeps one array of product objects in memory and exposes
    it through Express routes.  The embedding follows server.js top to
    bottom: JSON values and JavaScript's coercions, the two middlewares
    ([authenticate], [validateProduct]), one definition per route handler,
    the route table in registration order, and Express's dispatch over it.

    Two middlewares are registered with [app.use] before the routes:
    [express.json()], which parses the body or refuses it, and the
    logger, which writes a line to the console and calls [next()].
    [serve] is the application from the routes on, for a request that
    [express.json()] has passed on; [answer] is the whole application.

    What the embedding fixes by its types:
    - a request has one of the four methods the routes are registered
      for, and its path is a list of segments, a slash at the end being
      an empty last segment;
    - a request body is a JSON object (the result of [express.json()]);
    - a query parameter is a single text; the numeric ones ([page],
      [limit]) are given by the number their decimal spelling denotes;
    - numbers are exact rationals with NaN and the two infinities: the
      rounding of binary floating point and the sign of zero are left
      out, so a statement that rests on arithmetic is made for whole
      numbers below 2^53 ([Js.safe]), which doubles hold exactly;
    - texts are sequences of 8-bit characters and [toLowerCase] acts on
      the letters A-Z, so a statement that rests on letter case is made
      for ASCII texts ([Js.is_ascii]), where the two agree;
    - [uuidv4()] and [new Date().toISOString()] are inputs of the request
      ([uuid], [now]), as is the configured [API_KEY]. *)

From Stdlib Require Import Ascii String QArith Qround.
From stdpp Require Import gmap strings list fin_maps.

Local Open Scope string_scope.
Local Open Scope list_scope.
Local Set Warnings "-register-all".

(** ** JavaScript values *)

Module Js.

(** A JavaScript number, without the rounding of doubles: the finite
    ones are exact rationals.  The two agree on the whole numbers below
    2^53 ([safe], below) and on the sums, differences and products that
    stay among them. *)
Inductive number :=
  | NaN
  | Inf (negative : bool)
  | Fin (q : Q).

(** A JSON value as [JSON.parse] builds it.  An absent property
    ([undefined]) is the [None] of a lookup. *)
Inductive value :=
  | VNull
  | VBool (b : bool)
  | VNum (n : number)
  | VStr (s : string)
  | VArr (items : list value)
  | VObj (fields : list (string * value)).

(** A plain object used as a record: property name to value. *)
Abbreviation object := (gmap string value).

Definition of_Z (z : Z) : number := Fin (inject_Z z).
Definition of_nat (n : nat) : number := of_Z (Z.of_nat n).

Definition Qzero (q : Q) : bool := Qeq_bool q 0.
Definition Qneg (q : Q) : bool := negb (Qle_bool 0 q).

(** [a - b] *)
Definition sub (a b : number) : number :=
  match a, b with
  | NaN, _ | _, NaN => NaN
  | Inf s, Inf s' => if Bool.eqb s s' then NaN else Inf s
  | Inf s, Fin _ => Inf s
  | Fin _, Inf s => Inf (negb s)
  | Fin x, Fin y => Fin (x - y)
  end.

(** [a * b] *)
Definition mul (a b : number) : number :=
  match a, b with
  | NaN, _ | _, NaN => NaN
  | Inf s, Inf s' => Inf (xorb s s')
  | Inf s, Fin y => if Qzero y then NaN else Inf (xorb s (Qneg y))
  | Fin x, Inf s => if Qzero x then NaN else Inf (xorb s (Qneg x))
  | Fin x, Fin y => Fin (x * y)
  end.

(** [a / b] *)
Definition div (a b : number) : number :=
  match a, b with
  | NaN, _ | _, NaN => NaN
  | Inf _, Inf _ => NaN
  | Inf s, Fin y => Inf (xorb s (Qneg y))
  | Fin _, Inf _ => Fin 0
  | Fin x, Fin y =>
      if Qzero y then (if Qzero x then NaN else Inf (Qneg x))
      else Fin (x / y)
  end.

(** [a <= b] *)
Definition le (a b : number) : bool :=
  match a, b with
  | NaN, _ | _, NaN => false
  | Inf true, _ => true
  | Inf false, Inf false => true
  | Inf false, _ => false
  | Fin _, Inf s => negb s
  | Fin x, Fin y => Qle_bool x y
  end.

(** [Math.ceil] *)
Definition ceil (a : number) : number :=
  match a with
  | Fin q => of_Z (Qceiling q)
  | _ => a
  end.

(** Rounding towards zero. *)
Definition Qtrunc (q : Q) : Z := Z.quot (Qnum q) (Zpos (Qden q)).

(** [parseInt] of a number written in decimal notation: its integer
    part; [NaN] when there are no digits to read. *)
Definition parseInt (a : number) : number :=
  match a with
  | Fin q => of_Z (Qtrunc q)
  | _ => NaN
  end.

(** An array index argument after [ToIntegerOrInfinity]. *)
Inductive index :=
  | MinusInfinity
  | PlusInfinity
  | At (z : Z).

Definition to_index (a : number) : index :=
  match a with
  | NaN => At 0
  | Inf true => MinusInfinity
  | Inf false => PlusInfinity
  | Fin q => At (Qtrunc q)
  end.

(** The position an index argument of [slice] denotes in an array of
    [len] elements: negative arguments count from the end, and the
    result is clamped to [0, len]. *)
Definition clamp (len : nat) (i : index) : nat :=
  match i with
  | MinusInfinity => 0
  | PlusInfinity => len
  | At z =>
      if (z <? 0)%Z then Z.to_nat (Z.max (Z.of_nat len + z) 0)
      else Nat.min (Z.to_nat z) len
  end.

(** [l.slice(start, end)] *)
Definition slice {A} (l : list A) (start finish : number) : list A :=
  let k := clamp (length l) (to_index start) in
  let final := clamp (length l) (to_index finish) in
  firstn (final - k) (skipn k l).

(** Truthiness: [!v] is [negb (truthy v)]. *)
Definition truthy (v : option value) : bool :=
  match v with
  | None | Some VNull => false
  | Some (VBool b) => b
  | Some (VNum NaN) => false
  | Some (VNum (Inf _)) => true
  | Some (VNum (Fin q)) => negb (Qzero q)
  | Some (VStr s) => negb (String.eqb s "")
  | Some (VArr _) | Some (VObj _) => true
  end.

(** [typeof v === 'number'] *)
Definition is_number (v : option value) : bool :=
  match v with
  | Some (VNum _) => true
  | _ => false
  end.

(** [a || b] on values, [b] being defined. *)
Definition or_else (a : option value) (b : value) : value :=
  match a with
  | Some v => if truthy a then v else b
  | None => b
  end.

(** [v === s] for a text [s]: no coercion, so only a text equals it. *)
Definition strict_eq_text (v : option value) (s : string) : bool :=
  match v with
  | Some (VStr t) => String.eqb t s
  | _ => false
  end.

(** [{ ...a, ...b }]: the properties of [b] win. *)
Definition spread (a b : object) : object := b ∪ a.

(** [{ ...o, k: v }] where [v] may be [undefined]. *)
Definition with_prop (k : string) (v : option value) (o : object) : object :=
  match v with
  | Some x => <[k := x]> o
  | None => delete k o
  end.

(** *** Texts *)

Definition lower_char (c : ascii) : ascii :=
  let n := nat_of_ascii c in
  if (65 <=? n)%nat && (n <=? 90)%nat then ascii_of_nat (n + 32) else c.

(** [s.toLowerCase()] on a text of ASCII characters ([is_ascii],
    below): the letters A-Z are folded, every other character is
    kept. *)
Fixpoint lower (s : string) : string :=
  match s with
  | EmptyString => EmptyString
  | String c s' => String (lower_char c) (lower s')
  end.

(** [s.includes(sub)] *)
Fixpoint includes (s sub : string) : bool :=
  String.prefix sub s ||
  match s with
  | EmptyString => false
  | String _ s' => includes s' sub
  end.

(** The texts on which [lower] is [toLowerCase]: those of ASCII
    characters, among which A-Z are the only letters with another
    case. *)
Definition ascii_char (c : ascii) : bool := (nat_of_ascii c <? 128)%nat.

Fixpoint is_ascii (s : string) : bool :=
  match s with
  | EmptyString => true
  | String c s' => ascii_char c && is_ascii s'
  end.

(** The whole numbers a JavaScript number holds exactly: on them, and on
    results that stay among them, its arithmetic is that of the
    integers. *)
Definition safe (z : Z) : Prop := (z < 2 ^ 53)%Z.

(** A number as [res.json] writes it: NaN and the infinities are
    written [null] ([None]). *)
Definition to_json (a : number) : option Q :=
  match a with
  | Fin x => Some x
  | _ => None
  end.

End Js.

(** ** Errors and the result of an evaluation that may throw *)

(** Modelled from the spec: the error classes of ./errors, which server.js
    imports and which are not part of the sources at hand.  Section 7 of
    the spec gives their status codes: ValidationError 400 and
    NotFoundError 404.  [TypeError] is the engine's own error, raised by a
    method call on a value that has no such method; it has no
    [statusCode].  [BodyError] is an error that [express.json()] raises
    for a body it refuses (400 for malformed JSON, 413 for a body over
    the size limit, ...); it carries its own [statusCode]. *)
Inductive error :=
  | ValidationError (message : string)
  | NotFoundError (message : string)
  | TypeError (message : string)
  | BodyError (statusCode : nat) (message : string).

Definition message (e : error) : string :=
  match e with
  | ValidationError m | NotFoundError m | TypeError m | BodyError _ m => m
  end.

(** Modelled from the spec: the [statusCode] the classes of ./errors give
    their instances, 400 for ValidationError and 404 for NotFoundError
    (section 7 of the spec). *)
Definition statusCode (e : error) : option nat :=
  match e with
  | ValidationError _ => Some 400
  | NotFoundError _ => Some 404
  | TypeError _ => None
  | BodyError code _ => Some code
  end.

Inductive result (A : Type) :=
  | Ok (a : A)
  | Throw (e : error).
Arguments Ok {A} a.
Arguments Throw {A} e.

#[global] Instance result_ret : MRet result := fun A a => Ok a.
#[global] Instance result_bind : MBind result := fun A B f r =>
  match r with
  | Ok a => f a
  | Throw e => Throw e
  end.

(** [l.filter(f)] for a callback that may throw: the elements are visited
    in order and the first exception ends the visit. *)
Fixpoint filter_js {A} (f : A -> result bool) (l : list A) : result (list A) :=
  match l with
  | [] => Ok []
  | x :: l' =>
      keep ← f x;
      rest ← filter_js f l';
      Ok (if keep : bool then x :: rest else rest)
  end.

(** [v.toLowerCase()] for a property value [v] read as [expr]. *)
Definition toLowerCase (expr : string) (v : option Js.value) : result string :=
  match v with
  | Some (Js.VStr s) => Ok (Js.lower s)
  | None =>
      Throw (TypeError "Cannot read properties of undefined (reading 'toLowerCase')")
  | Some Js.VNull =>
      Throw (TypeError "Cannot read properties of null (reading 'toLowerCase')")
  | Some _ => Throw (TypeError (expr ++ ".toLowerCase is not a function"))
  end.

(** ** Requests, responses and the store *)

Abbreviation product := (gmap string Js.value).

Inductive http_method := GET | POST | PUT | DELETE.

#[global] Instance http_method_eq_dec : EqDecision http_method.
Proof. solve_decision. Defined.

(** [req.query]: the parameters the handlers read. *)
Record query := {
  category : option string;
  page : option Js.number;
  limit : option Js.number;
  q : option string
}.

Definition no_query : query :=
  {| category := None; page := None; limit := None; q := None |}.

Record request := {
  method : http_method;
  path : list string;              (* the segments of [req.path] *)
  params : query;                  (* [req.query] *)
  x_api_key : option string;       (* [req.headers['x-api-key']] *)
  body : product                   (* [req.body] *)
}.

(** What the process and the libraries supply while a request is served. *)
Record env := {
  API_KEY : option string;         (* [process.env.API_KEY] *)
  uuid : string;                   (* the value of [uuidv4()] *)
  now : string                     (* [new Date().toISOString()] *)
}.

(** The body of a response, one constructor per shape the service
    sends, with the values as they are handed to [res.json] (a number
    reaches the client as [Js.to_json] writes it). *)
Inductive content :=
  | Text (s : string)
  | JsonProduct (p : product)
  | JsonProducts (l : list product)
  | JsonPage (data : list product) (currentPage totalPages : Js.number)
      (totalItems : nat)
  | JsonStats (totalProducts : nat) (byCategory : gmap string nat)
      (inStock outOfStock : nat)
  | JsonMessage (message : string)
  | JsonError (message : string) (status : nat) (timestamp : string)
  | NoContent
  | ExpressNotFound.               (* the framework's own 404 page *)

Record response := { status : nat; sent : content }.

(** How a middleware or handler ends. *)
Inductive outcome :=
  | Next                           (* [next()] *)
  | Fail (e : error)               (* [next(err)], or an exception *)
  | Respond (r : response).

Abbreviation store := (list product).

(** A middleware reads [req.params.id] (when the route has one), the
    request and the environment, and may replace the [products] array. *)
Definition middleware : Type :=
  option string -> request -> env -> store -> outcome * store.

(** The two products the module starts with. *)
Definition laptop (id : string) : product :=
  {[ "id" := Js.VStr id; "name" := Js.VStr "Laptop";
     "description" := Js.VStr "High performance laptop";
     "price" := Js.VNum (Js.Fin (99999 # 100));
     "category" := Js.VStr "Electronics"; "inStock" := Js.VBool true ]}.

Definition smartphone (id : string) : product :=
  {[ "id" := Js.VStr id; "name" := Js.VStr "Smartphone";
     "description" := Js.VStr "Latest model";
     "price" := Js.VNum (Js.Fin (69999 # 100));
     "category" := Js.VStr "Electronics"; "inStock" := Js.VBool true ]}.

(** The array [products] as the module initialises it, given the two
    identifiers [uuidv4()] returns. *)
Definition products (id1 id2 : string) : store := [laptop id1; smartphone id2].

(** ** The middlewares *)

(** [authenticate]: the key must be present, non-empty and equal to the
    configured one; otherwise the request is answered here with 401. *)
Definition authenticate : middleware := fun _ req e st =>
  let apiKey := x_api_key req in
  let missing :=
    match apiKey with
    | None => true
    | Some k => String.eqb k ""
    end in
  let differs :=
    match apiKey, API_KEY e with
    | Some k, Some secret => negb (String.eqb k secret)
    | None, None => false
    | _, _ => true
    end in
  if missing || differs
  then (Respond {| status := 401; sent := JsonMessage "Unauthorized" |}, st)
  else (Next, st).

(** [validateProduct] *)
Definition validateProduct : middleware := fun _ req _ st =>
  let name := body req !! "name" in
  let price := body req !! "price" in
  let category := body req !! "category" in
  if negb (Js.truthy name) || negb (Js.truthy price) || negb (Js.truthy category)
  then (Fail (ValidationError "Name, price and category are required"), st)
  else if negb (Js.is_number price)
  then (Fail (ValidationError "Price must be a number"), st)
  else
    match price with
    | Some (Js.VNum n) =>
        if Js.le n (Js.of_Z 0)
        then (Fail (ValidationError "Price must be greater than 0"), st)
        else (Next, st)
    | _ => (Next, st)
    end.

(** ** The route handlers *)

(** [GET /] *)
Definition root : middleware := fun _ _ _ st =>
  (Respond {| status := 200; sent := Text "Products API is running" |}, st).

(** [p.category.toLowerCase() === category.toLowerCase()] *)
Definition category_is (wanted : string) (p : product) : result bool :=
  c ← toLowerCase "p.category" (p !! "category");
  Ok (String.eqb c (Js.lower wanted)).

(** [GET /api/products]: filtering and pagination. *)
Definition list_products : middleware := fun _ req _ st =>
  let page := default (Js.of_Z 1) (page (params req)) in
  let limit := default (Js.of_Z 10) (limit (params req)) in
  let filtered :=
    match category (params req) with
    | Some c =>
        if String.eqb c "" then Ok st else filter_js (category_is c) st
    | None => Ok st
    end in
  match filtered with
  | Throw err => (Fail err, st)
  | Ok result =>
      let startIndex := Js.mul (Js.sub page (Js.of_Z 1)) limit in
      let endIndex := Js.mul page limit in
      let paginatedResults := Js.slice result startIndex endIndex in
      (Respond {| status := 200;
                  sent := JsonPage paginatedResults (Js.parseInt page)
                            (Js.ceil (Js.div (Js.of_nat (length result)) limit))
                            (length result) |}, st)
  end.

(** [p.id === req.params.id] *)
Definition has_id (id : string) (p : product) : bool :=
  Js.strict_eq_text (p !! "id") id.

(** [products.find(p => p.id === id)] *)
Definition find_product (id : string) (st : store) : option product :=
  List.find (has_id id) st.

(** [products.findIndex(p => p.id === id)]; [None] is the source's -1. *)
Fixpoint findIndex (id : string) (st : store) : option nat :=
  match st with
  | [] => None
  | p :: st' => if has_id id p then Some 0%nat else S <$> findIndex id st'
  end.

(** The [req.params.id] of a route that has the parameter. *)
Definition param (id : option string) : string :=
  match id with
  | Some segment => segment
  | None => ""
  end.

(** [GET /api/products/:id] *)
Definition get_product : middleware := fun id _ _ st =>
  match find_product (param id) st with
  | None => (Fail (NotFoundError "Product not found"), st)
  | Some p => (Respond {| status := 200; sent := JsonProduct p |}, st)
  end.

(** The object [POST /api/products] stores:
    [{ id: uuidv4(), ...req.body, inStock: req.body.inStock || true }]. *)
Definition new_product (fresh : string) (payload : product) : product :=
  <["inStock" := Js.or_else (payload !! "inStock") (Js.VBool true)]>
    (Js.spread {[ "id" := Js.VStr fresh ]} payload).

(** [POST /api/products], after [authenticate] and [validateProduct]. *)
Definition create_product : middleware := fun _ req e st =>
  let p := new_product (uuid e) (body req) in
  (Respond {| status := 201; sent := JsonProduct p |}, st ++ [p]).

(** The object [PUT /api/products/:id] stores in place of [old]:
    [{ ...old, ...req.body, id: old.id }]. *)
Definition merged (old payload : product) : product :=
  Js.with_prop "id" (old !! "id") (Js.spread old payload).

(** [PUT /api/products/:id], after [authenticate] and [validateProduct].
    The index that [findIndex] returns is a position of the array, so
    [products[index]] is always the product found. *)
Definition update_product : middleware := fun id req _ st =>
  match findIndex (param id) st with
  | None => (Fail (NotFoundError "Product not found"), st)
  | Some index =>
      match st !! index with
      | Some old =>
          let p := merged old (body req) in
          (Respond {| status := 200; sent := JsonProduct p |}, <[index := p]> st)
      | None => (Fail (NotFoundError "Product not found"), st)
      end
  end.

(** [DELETE /api/products/:id], after [authenticate]. *)
Definition delete_product : middleware := fun id _ _ st =>
  let initialLength := length st in
  let st' := List.filter (fun p => negb (has_id (param id) p)) st in
  if Nat.eqb (length st') initialLength
  then (Fail (NotFoundError "Product not found"), st')
  else (Respond {| status := 204; sent := NoContent |}, st').

(** The callback of the search filter:
    [p.name.toLowerCase().includes(q.toLowerCase()) ||
     p.description.toLowerCase().includes(q.toLowerCase())].
    The right operand is evaluated only when the left one is false. *)
Definition search_match (wanted : string) (p : product) : result bool :=
  name ← toLowerCase "p.name" (p !! "name");
  if Js.includes name (Js.lower wanted) then Ok true
  else
    description ← toLowerCase "p.description" (p !! "description");
    Ok (Js.includes description (Js.lower wanted)).

(** The handler registered for [GET /api/products/search]. *)
Definition search_products : middleware := fun _ req _ st =>
  match q (params req) with
  | None => (Fail (ValidationError "Search query required"), st)
  | Some wanted =>
      if String.eqb wanted ""
      then (Fail (ValidationError "Search query required"), st)
      else
        match filter_js (search_match wanted) st with
        | Throw err => (Fail err, st)
        | Ok results =>
            (Respond {| status := 200; sent := JsonProducts results |}, st)
        end
  end.

(** The property name that [acc[product.category]] reads and writes.  A
    text, the only kind of category the data model has, is its own
    name.  For another kind of value JavaScript takes the text it
    renders the value as; the renderings of [undefined], [null], the
    booleans and plain objects are given here, those of numbers and
    arrays are not (they are filed under the empty name).  The counts
    are those of an accumulator without inherited properties, so the
    reducer below is the source's for the categories that name no
    property that [{}] inherits ([countable_category]): under a name
    such as [constructor] or [__proto__] the source reads the inherited
    value and does not count. *)
Definition property_name (v : option Js.value) : string :=
  match v with
  | Some (Js.VStr s) => s
  | None => "undefined"
  | Some Js.VNull => "null"
  | Some (Js.VBool b) => if b then "true" else "false"
  | Some (Js.VObj _) => "[object Object]"
  | Some (Js.VNum _) | Some (Js.VArr _) => ""
  end.

(** The reducer of the statistics:
    [acc[product.category] = (acc[product.category] || 0) + 1]. *)
Definition count_category (acc : gmap string nat) (p : product) : gmap string nat :=
  let k := property_name (p !! "category") in
  <[k := (default 0 (acc !! k) + 1)%nat]> acc.

(** The handler registered for [GET /api/products/stats]. *)
Definition product_stats : middleware := fun _ _ _ st =>
  (Respond {| status := 200;
              sent := JsonStats (length st)
                        (fold_left count_category st ∅)
                        (length (List.filter (fun p => Js.truthy (p !! "inStock")) st))
                        (length (List.filter (fun p => negb (Js.truthy (p !! "inStock"))) st)) |},
   st).

(** The error handling middleware registered last.  The status is
    [err.statusCode || 500]: the error's own code, and 500 when it has
    none or a zero one. *)
Definition error_handler (err : error) (e : env) : response :=
  let statusCode :=
    match statusCode err with
    | Some (S n) => S n
    | _ => 500%nat
    end in
  {| status := statusCode;
     sent := JsonError (message err) statusCode (now e) |}.

(** ** Routing *)

Inductive segment :=
  | Lit (s : string)               (* a fixed segment *)
  | Param.                         (* [:id] *)

(** Matching a path against a route's pattern, segment by segment.  The
    path [/a/b] is the list [a; b], and a slash at the end gives an
    empty last segment.  Fixed segments are compared without regard to
    case and one slash at the end is allowed (Express's defaults);
    [:id] takes any non-empty segment. *)
Fixpoint match_path (pat : list segment) (p : list string) (id : option string)
  : option (option string) :=
  match pat, p with
  | [], [] => Some id
  | [], [seg] => if String.eqb seg "" then Some id else None
  | Lit s :: pat', seg :: p' =>
      if String.eqb (Js.lower seg) (Js.lower s) then match_path pat' p' id else None
  | Param :: pat', seg :: p' =>
      if String.eqb seg "" then None else match_path pat' p' (Some seg)
  | _, _ => None
  end.

Record route := {
  verb : http_method;
  pattern : list segment;
  handlers : list middleware
}.

Definition api_products : list segment := [Lit "api"; Lit "products"].

(** The routes of [app], in the order server.js registers them. *)
Definition app : list route :=
  [ {| verb := GET; pattern := []; handlers := [root] |};
    {| verb := GET; pattern := api_products; handlers := [list_products] |};
    {| verb := GET; pattern := api_products ++ [Param];
       handlers := [get_product] |};
    {| verb := POST; pattern := api_products;
       handlers := [authenticate; validateProduct; create_product] |};
    {| verb := PUT; pattern := api_products ++ [Param];
       handlers := [authenticate; validateProduct; update_product] |};
    {| verb := DELETE; pattern := api_products ++ [Param];
       handlers := [authenticate; delete_product] |};
    {| verb := GET; pattern := api_products ++ [Lit "search"];
       handlers := [search_products] |};
    {| verb := GET; pattern := api_products ++ [Lit "stats"];
       handlers := [product_stats] |} ].

(** The handlers of one route run in turn while each calls [next()]. *)
Fixpoint run_handlers (hs : list middleware) (id : option string)
    (req : request) (e : env) (st : store) : outcome * store :=
  match hs with
  | [] => (Next, st)
  | h :: hs' =>
      match h id req e st with
      | (Next, st') => run_handlers hs' id req e st'
      | ended => ended
      end
  end.

(** Express walks the routes in registration order; the first one whose
    method and path match runs, and a later one is reached only if that
    one's last handler calls [next()]. *)
Fixpoint run_routes (rs : list route) (req : request) (e : env) (st : store)
  : outcome * store :=
  match rs with
  | [] => (Next, st)
  | r :: rs' =>
      if decide (verb r = method req) then
        match match_path (pattern r) (path req) None with
        | Some id =>
            match run_handlers (handlers r) id req e st with
            | (Next, st') => run_routes rs' req e st'
            | ended => ended
            end
        | None => run_routes rs' req e st
        end
      else run_routes rs' req e st
  end.

(** One request that [express.json()] has passed on, served by the
    routes and the error handling middleware: the response sent and
    the [products] array afterwards.  A request that no route answers
    gets the 404 of Express's final handler. *)
Definition serve (req : request) (e : env) (st : store) : response * store :=
  match run_routes app req e st with
  | (Respond r, st') => (r, st')
  | (Fail err, st') => (error_handler err e, st')
  | (Next, st') => ({| status := 404; sent := ExpressNotFound |}, st')
  end.

(** ** The middlewares registered before the routes *)

(** What [express.json()] (line 11) makes of a request: it sets
    [req.body] (to [{}] when there is no JSON body) and calls [next()],
    or it refuses the body and calls [next(err)] with an error of its
    own (malformed JSON, a body over the size limit, ...). *)
Inductive parsing :=
  | Accepted
  | Refused (statusCode : nat) (message : string).

Definition express_json (p : parsing) : outcome :=
  match p with
  | Accepted => Next
  | Refused code text => Fail (BodyError code text)
  end.

(** The whole application on one request: [express.json()] first, then
    the logger (which only writes to the console), the routes and the
    error handling middleware.  For a request that is accepted,
    [body req] is the body that [express.json()] parsed. *)
Definition answer (p : parsing) (req : request) (e : env) (st : store)
  : response * store :=
  match express_json p with
  | Next => serve req e st
  | Fail err => (error_handler err e, st)
  | Respond r => (r, st)
  end.

(** * The vocabulary of the statements *)

(** ** Requests *)

Definition get (p : list string) (qs : query) : request :=
  {| method := GET; path := p; params := qs; x_api_key := None; body := ∅ |}.

Definition post (key : option string) (payload : product) : request :=
  {| method := POST; path := ["api"; "products"]; params := no_query;
     x_api_key := key; body := payload |}.

Definition put (id : string) (key : option string) (payload : product) : request :=
  {| method := PUT; path := ["api"; "products"; id]; params := no_query;
     x_api_key := key; body := payload |}.

Definition search_for (wanted : option string) : query :=
  {| category := None; page := None; limit := None; q := wanted |}.

Definition not_found (e : env) : response :=
  error_handler (NotFoundError "Product not found") e.

(** ** Keys and routes *)

(** The key of a request is refused when it is absent or is not the
    configured one. *)
Definition bad_key (req : request) (e : env) : Prop :=
  x_api_key req = None \/ x_api_key req <> API_KEY e.

(** The key of a request is accepted when it is the configured one and
    is not the empty text. *)
Definition good_key (req : request) (e : env) : Prop :=
  exists key, key <> "" /\ x_api_key req = Some key /\ API_KEY e = Some key.

Definition unauthorized : response :=
  {| status := 401; sent := JsonMessage "Unauthorized" |}.

(** [routed req v pat]: the request has the method and a path of the
    route registered as [v pat]. *)
Definition routed (req : request) (v : http_method) (pat : list segment) : Prop :=
  method req = v /\ is_Some (match_path pat (path req) None).

Definition mutating (req : request) : Prop :=
  routed req POST api_products \/
  routed req PUT (api_products ++ [Param]) \/
  routed req DELETE (api_products ++ [Param]).

(** ** Validated payloads *)

(** [0 < n] *)
Definition positive (n : Js.number) : bool :=
  match n with
  | Js.NaN => false
  | Js.Inf negative => negb negative
  | Js.Fin x => negb (Qle_bool x 0)
  end.

(** The payloads [validateProduct] lets through: name, price and
    category are truthy (so present, and not the empty text, null,
    false or zero) and the price is a number above zero. *)
Definition accepted (payload : product) : Prop :=
  Js.truthy (payload !! "name") = true /\
  Js.truthy (payload !! "category") = true /\
  exists n, payload !! "price" = Some (Js.VNum n) /\ positive n = true.

(** The payloads [validateProduct] refuses: name, price or category is
    absent or falsy, or the price is not a number, or it is a number
    that is zero or below. *)
Definition rejected (payload : product) : Prop :=
  Js.truthy (payload !! "name") = false \/
  Js.truthy (payload !! "price") = false \/
  Js.truthy (payload !! "category") = false \/
  Js.is_number (payload !! "price") = false \/
  exists n, payload !! "price" = Some (Js.VNum n) /\ positive n = false.

(** The identifiers held by the store, in order. *)
Definition ids (st : store) : list (option Js.value) := (fun p => p !! "id") <$> st.

(** ** Listings *)

(** [p] has a text as category, as the data model has it. *)
Definition text_category (p : product) : Prop :=
  exists s, p !! "category" = Some (Js.VStr s).

(** The category of [p] is [c] up to case. *)
Definition in_category (c : string) (p : product) : bool :=
  match p !! "category" with
  | Some (Js.VStr s) => String.eqb (Js.lower s) (Js.lower c)
  | _ => false
  end.

(** The listing the claim describes: the products of the category, in
    store order; all of them when no category is given. *)
Definition listed (c : option string) (st : store) : list product :=
  match c with
  | Some c => List.filter (in_category c) st
  | None => st
  end.

(** The listing the handler pages: an empty [category] parameter
    selects like an absent one. *)
Definition selected (c : option string) (st : store) : list product :=
  match c with
  | Some c => if String.eqb c "" then st else List.filter (in_category c) st
  | None => st
  end.

(** The elements at the positions [(pg-1)*lm <= i < pg*lm] of [l]. *)
Definition window {A} (pg lm : Z) (l : list A) : list A :=
  firstn (Z.to_nat lm) (skipn (Z.to_nat ((pg - 1) * lm)) l).

Definition list_query (c : option string) (pg lm : option Z) (wanted : option string)
  : query :=
  {| category := c; page := Js.of_Z <$> pg; limit := Js.of_Z <$> lm; q := wanted |}.

(** ** Failure responses *)

(** What a handler of the application may send by itself: the 401 of
    [authenticate], or a response that is not a failure. *)
Definition plain (o : outcome * store) : Prop :=
  match o.1 with
  | Respond r => r = unauthorized \/ (status r < 400)%nat
  | _ => True
  end.

Definition plain_handler (h : middleware) : Prop :=
  forall id req e st, plain (h id req e st).

(** ** Searching *)

(** The name of [p] contains [wanted], without regard to case. *)
Definition name_has (wanted : string) (p : product) : bool :=
  match p !! "name" with
  | Some (Js.VStr s) => Js.includes (Js.lower s) (Js.lower wanted)
  | _ => false
  end.

(** The description of [p] contains [wanted], without regard to case. *)
Definition description_has (wanted : string) (p : product) : bool :=
  match p !! "description" with
  | Some (Js.VStr s) => Js.includes (Js.lower s) (Js.lower wanted)
  | _ => false
  end.

(** [p] has a text as name and, when it has a description, a text as
    description. *)
Definition searchable (p : product) : Prop :=
  (exists s, p !! "name" = Some (Js.VStr s)) /\
  (p !! "description" = None \/ exists d, p !! "description" = Some (Js.VStr d)).

(** The products on which the search callback throws: no description,
    and a name that does not decide the match by itself. *)
Definition undescribed_miss (wanted : string) (p : product) : bool :=
  negb (name_has wanted p) && bool_decide (p !! "description" = None).

Definition no_description_error : error :=
  TypeError "Cannot read properties of undefined (reading 'toLowerCase')".

(** ** Aggregates *)

(** The sum of the counts of an aggregate. *)
Definition total (counts : gmap string nat) : nat :=
  map_fold (fun _ n sum => (n + sum)%nat) 0%nat counts.

(** ** Concrete inputs *)

Definition an_env : env := {| API_KEY := Some "secret"; uuid := "u3"; now := "t" |}.

(** The store right after start-up. *)
Definition initial : store := products "u1" "u2".

Definition n10 : Js.value := Js.VNum (Js.of_Z 10).

(** A payload whose name is present and is the empty text. *)
Definition empty_named : product :=
  {[ "name" := Js.VStr ""; "price" := n10; "category" := Js.VStr "Tools" ]}.

(** A valid payload that says the product is out of stock. *)
Definition out_of_stock_desk : product :=
  {[ "name" := Js.VStr "Desk"; "price" := n10;
     "category" := Js.VStr "Furniture"; "inStock" := Js.VBool false ]}.

(** A valid payload that carries the id of the first product of the
    initial store. *)
Definition copy_of_first : product :=
  {[ "id" := Js.VStr "u1"; "name" := Js.VStr "Copy"; "price" := n10;
     "category" := Js.VStr "Electronics" ]}.

(** An update that carries only a price. *)
Definition price_only : product := {[ "price" := n10 ]}.

(** A full update of the first product of the initial store. *)
Definition cheaper_laptop : product :=
  {[ "name" := Js.VStr "Laptop"; "price" := n10;
     "category" := Js.VStr "Electronics"; "id" := Js.VStr "other" ]}.

(** A product as create stores it for a payload without description. *)
Definition bare_laptop : product :=
  {[ "id" := Js.VStr "u1"; "name" := Js.VStr "Laptop"; "price" := n10;
     "category" := Js.VStr "Electronics"; "inStock" := Js.VBool true ]}.

(** * Vocabulary of the further properties *)

Definition del (id : string) (key : option string) : request :=
  {| method := DELETE; path := ["api"; "products"; id]; params := no_query;
     x_api_key := key; body := ∅ |}.

(** The answer of Express to a request that no route takes. *)
Definition express_not_found : response :=
  {| status := 404; sent := ExpressNotFound |}.

(** [p] is stored under the identifier [id]. *)
Definition is_called (id : string) (p : product) : Prop :=
  p !! "id" = Some (Js.VStr id).

(** Requests served one after the other, each with the key
    configuration, identifier and time of its own moment: the
    [products] array at the end. *)
Fixpoint serve_all (trace : list (request * env)) (st : store) : store :=
  match trace with
  | [] => st
  | (req, e) :: rest => serve_all rest (serve req e st).2
  end.

(** What validation and the handlers see to for every product that is
    stored: a truthy name and category, a price that is a number above
    zero, and an [id] property. *)
Definition kept (p : product) : Prop :=
  accepted p /\ is_Some (p !! "id").

(** The [data] of a paginated answer. *)
Definition page_data (r : response) : list product :=
  match sent r with
  | JsonPage data _ _ _ => data
  | _ => []
  end.

(** The [totalPages] of a paginated answer. *)
Definition page_count (r : response) : option Js.number :=
  match sent r with
  | JsonPage _ _ pages _ => Some pages
  | _ => None
  end.

(** [sub] occurs in [s]. *)
Definition occurs_in (sub s : string) : Prop :=
  exists pre post, s = String.append pre (String.append sub post).

(** [p] matches the search for [wanted]: its name or its description
    contains the text, letter case apart. *)
Definition matches (wanted : string) (p : product) : Prop :=
  (exists s, p !! "name" = Some (Js.VStr s) /\
             occurs_in (Js.lower wanted) (Js.lower s)) \/
  (exists d, p !! "description" = Some (Js.VStr d) /\
             occurs_in (Js.lower wanted) (Js.lower d)).

(** The property names that an object literal [{}] inherits from
    [Object.prototype]. *)
Definition inherited_names : list string :=
  [ "constructor"; "hasOwnProperty"; "isPrototypeOf"; "propertyIsEnumerable";
    "toLocaleString"; "toString"; "valueOf"; "__proto__";
    "__defineGetter__"; "__defineSetter__"; "__lookupGetter__";
    "__lookupSetter__" ].

(** A category that the statistics count under its own name: a text
    that names no inherited property. *)
Definition countable_category (p : product) : Prop :=
  exists s, p !! "category" = Some (Js.VStr s) /\ s ∉ inherited_names.

(** What a handler leaves of the store when it does not succeed: a
    handler that passes on, fails, or answers with a failure status has
    left the array as it was. *)
Definition settled (st : store) (o : outcome * store) : Prop :=
  match o.1 with
  | Respond r => (400 <= status r)%nat -> o.2 = st
  | _ => o.2 = st
  end.

Definition settled_handler (h : middleware) : Prop :=
  forall id req e st, settled st (h id req e st).

(** The changes one request can make to the [products] array: none;
    a create that appends the product built from an accepted payload;
    an update that replaces one product by its merge with an accepted
    payload; a delete that removes the products called [id]. *)
Inductive step (req : request) (e : env) (st : store) : store -> Prop :=
  | step_none : step req e st st
  | step_create :
      method req = POST ->
      accepted (body req) ->
      step req e st (st ++ [new_product (uuid e) (body req)])
  | step_update (index : nat) (old : product) :
      method req = PUT ->
      accepted (body req) ->
      st !! index = Some old ->
      step req e st (<[index := merged old (body req)]> st)
  | step_delete (id : string) :
      method req = DELETE ->
      step req e st (List.filter (fun p => negb (has_id id p)) st).

(** [p] has an ASCII text as category. *)
Definition ascii_category (p : product) : Prop :=
  exists s, p !! "category" = Some (Js.VStr s) /\ Js.is_ascii s = true.

(** The [category] parameter, when there is one, is an ASCII text. *)
Definition ascii_query (c : option string) : Prop :=
  match c with
  | Some text => Js.is_ascii text = true
  | None => True
  end.

(** [p] has an ASCII text as name and as description. *)
Definition ascii_described (p : product) : Prop :=
  (exists s, p !! "name" = Some (Js.VStr s) /\ Js.is_ascii s = true) /\
  (exists d, p !! "description" = Some (Js.VStr d) /\ Js.is_ascii d = true).

(** [p] has an ASCII text as name and, when it has a description, an
    ASCII text as description. *)
Definition ascii_searchable (p : product) : Prop :=
  (exists s, p !! "name" = Some (Js.VStr s) /\ Js.is_ascii s = true) /\
  (p !! "description" = None \/
   exists d, p !! "description" = Some (Js.VStr d) /\ Js.is_ascii d = true).


(** The category of [p] is the text [s], letter for letter. *)
Definition has_category (s : string) (p : product) : bool :=
  match p !! "category" with
  | Some (Js.VStr t) => String.eqb t s
  | _ => false
  end.

(** [p] has a text as name and a text as description. *)
Definition described (p : product) : Prop :=
  (exists s, p !! "name" = Some (Js.VStr s)) /\
  (exists d, p !! "description" = Some (Js.VStr d)).

(** * Properties *)

(** ** Routing facts *)

Lemma match_path_lit (s : string) pat p id :
  match_path (Lit s :: pat) (s :: p) id = match_path pat p id.
Proof. cbn. by rewrite String.eqb_refl. Qed.

Lemma match_path_end (seg : string) id :
  seg <> "" -> match_path [] [seg] id = None.
Proof. intros H. cbn. by destruct (String.eqb_spec seg ""). Qed.

Lemma match_path_param (seg : string) pat p id :
  seg <> "" ->
  match_path (Param :: pat) (seg :: p) id = match_path pat p (Some seg).
Proof. intros H. cbn. by destruct (String.eqb_spec seg ""). Qed.

(** A route of another method, or whose pattern does not match, is
    passed over. *)
Lemma run_routes_skip r rs req e st :
  verb r <> method req \/ match_path (pattern r) (path req) None = None ->
  run_routes (r :: rs) req e st = run_routes rs req e st.
Proof.
  intros H. cbn [run_routes]. case_decide; [|done].
  destruct H as [H|H]; [done|]. by rewrite H.
Qed.

(** The first route that matches runs its handlers. *)
Lemma run_routes_hit r rs req e st id :
  verb r = method req ->
  match_path (pattern r) (path req) None = Some id ->
  run_routes (r :: rs) req e st =
    match run_handlers (handlers r) id req e st with
    | (Next, st') => run_routes rs req e st'
    | ended => ended
    end.
Proof.
  intros Hv Hp. cbn [run_routes]. case_decide; [|done]. by rewrite Hp.
Qed.

(** Deciding whether the route at the head of the table takes the
    request, given its method and path. *)
Ltac other_method Hm := left; cbn; rewrite Hm; discriminate.
Ltac other_path Hp :=
  right; cbn [pattern]; rewrite Hp; unfold api_products; cbn [List.app];
  rewrite ?match_path_lit; reflexivity.
Ltac skip_route Hm Hp :=
  rewrite run_routes_skip by (first [other_method Hm | other_path Hp]).

(** A GET whose path is [/api/products/<seg>] is answered by the by-id
    handler, whatever [seg] is: that route is the first one that matches,
    and its handler never calls [next()]. *)
Lemma get_three_segments (req : request) (e : env) (st : store) (seg : string) :
  method req = GET ->
  path req = ["api"; "products"; seg] ->
  seg <> "" ->
  run_routes app req e st = get_product (Some seg) req e st.
Proof.
  intros Hm Hp Hseg. unfold app.
  skip_route Hm Hp.
  rewrite run_routes_skip
    by (right; cbn [pattern]; rewrite Hp; unfold api_products;
        rewrite !match_path_lit; by apply match_path_end).
  rewrite (run_routes_hit _ _ _ _ _ (Some seg)).
  - cbn [handlers run_handlers]. unfold get_product.
    by destruct (find_product _ st).
  - by rewrite Hm.
  - cbn [pattern]. rewrite Hp. unfold api_products. cbn [List.app].
    rewrite !match_path_lit. by rewrite match_path_param.
Qed.

Lemma serve_get_three_segments (req : request) (e : env) (st : store) (seg : string) :
  method req = GET ->
  path req = ["api"; "products"; seg] ->
  seg <> "" ->
  serve req e st =
    match find_product seg st with
    | Some p => ({| status := 200; sent := JsonProduct p |}, st)
    | None => (not_found e, st)
    end.
Proof.
  intros Hm Hp Hseg. unfold serve.
  rewrite (get_three_segments req e st seg Hm Hp Hseg).
  unfold get_product, param; cbn. by destruct (find_product seg st).
Qed.

(** ** C1: the search route *)

(** C1 (as the code behaves).  A GET of /api/products/search never
    reaches the search handler: for every store, environment and query
    (with or without [q]) the request is answered by the by-id handler
    with "search" as the identifier, so the answer is the product whose
    id is the text "search" when there is one, and 404 "Product not
    found" otherwise; neither the matching products nor a 400 for a
    missing [q] is ever sent. *)
Theorem search_is_taken_for_an_id (e : env) (st : store) (qs : query) :
  serve (get ["api"; "products"; "search"] qs) e st =
    match find_product "search" st with
    | Some p => ({| status := 200; sent := JsonProduct p |}, st)
    | None => (not_found e, st)
    end.
Proof. apply serve_get_three_segments; [reflexivity | reflexivity | discriminate]. Qed.

(** ** C2: the statistics route *)

(** C2 (as the code behaves).  A GET of /api/products/stats never
    reaches the statistics handler: for every store it is answered by
    the by-id handler with "stats" as the identifier, so no aggregate is
    sent; the answer is 404 "Product not found" unless a product has the
    id "stats". *)
Theorem stats_is_taken_for_an_id (e : env) (st : store) (qs : query) :
  serve (get ["api"; "products"; "stats"] qs) e st =
    match find_product "stats" st with
    | Some p => ({| status := 200; sent := JsonProduct p |}, st)
    | None => (not_found e, st)
    end.
Proof. apply serve_get_three_segments; [reflexivity | reflexivity | discriminate]. Qed.

(** At the module's initial store no product is called "search" or
    "stats" (the identifiers are UUIDs), so both requests get a 404. *)
Example search_laptop_on_initial_store :
  serve (get ["api"; "products"; "search"] (search_for (Some "laptop")))
        an_env initial
  = ({| status := 404; sent := JsonError "Product not found" 404 "t" |}, initial).
Proof. reflexivity. Qed.

Example stats_on_initial_store :
  serve (get ["api"; "products"; "stats"] no_query) an_env initial
  = ({| status := 404; sent := JsonError "Product not found" 404 "t" |}, initial).
Proof. reflexivity. Qed.

(** ** Authentication *)

Lemma authenticate_bad id req e st :
  bad_key req e -> authenticate id req e st = (Respond unauthorized, st).
Proof.
  unfold bad_key, authenticate. intros H.
  destruct (x_api_key req) as [k|]; [|done].
  destruct (String.eqb_spec k "") as [->|Hk]; [done|].
  destruct (API_KEY e) as [secret|]; [|done].
  destruct (String.eqb_spec k secret) as [->|Hne]; [|done].
  by destruct H.
Qed.

Lemma authenticate_good id req e st :
  good_key req e -> authenticate id req e st = (Next, st).
Proof.
  intros (key & Hkey & Hreq & Hcfg). unfold authenticate.
  rewrite Hreq, Hcfg, String.eqb_refl.
  by destruct (String.eqb_spec key "").
Qed.

(** Once [authenticate] has answered, nothing registered after it on the
    route runs: the outcome does not depend on the rest of the chain. *)
Lemma authenticate_stops rest id req e st :
  bad_key req e ->
  run_handlers (authenticate :: rest) id req e st = (Respond unauthorized, st).
Proof. intros H. cbn [run_handlers]. by rewrite authenticate_bad. Qed.

Lemma authenticate_passes rest id req e st :
  good_key req e ->
  run_handlers (authenticate :: rest) id req e st = run_handlers rest id req e st.
Proof. intros H. cbn [run_handlers]. by rewrite authenticate_good. Qed.

(** ** The three mutating routes *)

Lemma run_post req e st :
  routed req POST api_products ->
  exists id, run_routes app req e st =
    run_handlers [authenticate; validateProduct; create_product] id req e st.
Proof.
  intros [Hm [id Hp]]. exists id. unfold app.
  do 3 rewrite run_routes_skip by other_method Hm.
  rewrite (run_routes_hit _ _ _ _ _ id) by done.
  cbn [handlers run_handlers].
  destruct (authenticate id req e st) as [[] ?]; try done.
  destruct (validateProduct id req e _) as [[] ?]; done.
Qed.

Lemma run_put req e st :
  routed req PUT (api_products ++ [Param]) ->
  exists id, match_path (api_products ++ [Param]) (path req) None = Some id /\
    run_routes app req e st =
    run_handlers [authenticate; validateProduct; update_product] id req e st.
Proof.
  intros [Hm [id Hp]]. exists id. split; [done|]. unfold app.
  do 4 rewrite run_routes_skip by other_method Hm.
  rewrite (run_routes_hit _ _ _ _ _ id) by done.
  cbn [handlers run_handlers].
  destruct (authenticate id req e st) as [[] ?]; try done.
  destruct (validateProduct id req e _) as [[] ?]; try done.
  unfold update_product. destruct (findIndex _ _); [|done].
  by destruct (_ !! _).
Qed.

Lemma run_delete req e st :
  routed req DELETE (api_products ++ [Param]) ->
  exists id, match_path (api_products ++ [Param]) (path req) None = Some id /\
    run_routes app req e st =
    run_handlers [authenticate; delete_product] id req e st.
Proof.
  intros [Hm [id Hp]]. exists id. split; [done|]. unfold app.
  do 5 rewrite run_routes_skip by other_method Hm.
  rewrite (run_routes_hit _ _ _ _ _ id) by done.
  cbn [handlers run_handlers].
  destruct (authenticate id req e st) as [[] ?]; try done.
  unfold delete_product. by destruct (Nat.eqb _ _).
Qed.

(** ** C8: requests without a valid key *)

(** Once a request has reached the routes, [authenticate] is the first
    handler of the three mutating routes: without a valid key the
    answer is its 401 and the store is unchanged, whatever chain
    follows it. *)
Lemma routes_need_key (req : request) (e : env) (st : store) :
  mutating req ->
  bad_key req e ->
  serve req e st = (unauthorized, st) /\
  forall rest id,
    run_handlers (authenticate :: rest) id req e st = (Respond unauthorized, st).
Proof.
  intros Hroute Hkey. split; [|intros; by apply authenticate_stops].
  unfold serve.
  destruct Hroute as [H|[H|H]].
  - destruct (run_post req e st H) as [id ->]. by rewrite authenticate_stops.
  - destruct (run_put req e st H) as (id & _ & ->). by rewrite authenticate_stops.
  - destruct (run_delete req e st H) as (id & _ & ->). by rewrite authenticate_stops.
Qed.

(** C8 as stated fails: [express.json()] is registered before the
    routes, so a request to a mutating route that carries no key and a
    body that the parser refuses (here one over the size limit) is
    answered by the error handling middleware with the parser's error,
    413, and not with 401 Unauthorized. *)
Lemma refused_body_is_answered_first :
  mutating (del "u1" None) /\
  bad_key (del "u1" None) an_env /\
  answer (Refused 413 "request entity too large") (del "u1" None) an_env initial
  = ({| status := 413;
        sent := JsonError "request entity too large" 413 "t" |}, initial) /\
  status (answer (Refused 413 "request entity too large")
            (del "u1" None) an_env initial).1 = 413%nat /\
  status unauthorized = 401%nat.
Proof.
  split; [|split; [|split; [|split]]].
  - right; right. split; [reflexivity | by eexists].
  - left. reflexivity.
  - reflexivity.
  - reflexivity.
  - reflexivity.
Qed.

(** C8 (amended).  For every request to a mutating route (POST
    /api/products, PUT and DELETE /api/products/:id) whose x-api-key
    header is absent or differs from the configured key: when
    [express.json()] accepts its body, the response is 401 Unauthorized
    and the collection is unchanged; when [express.json()] refuses its
    body, the response is the parser's error in the shape of the error
    handling middleware and the collection is unchanged.  The handlers
    registered after [authenticate] are not invoked: whatever chain
    follows it, the outcome is the 401 of [authenticate]. *)
Theorem mutation_needs_key (p : parsing) (req : request) (e : env) (st : store) :
  mutating req ->
  bad_key req e ->
  answer p req e st
  = match p with
    | Accepted => (unauthorized, st)
    | Refused code text => (error_handler (BodyError code text) e, st)
    end /\
  forall rest id,
    run_handlers (authenticate :: rest) id req e st = (Respond unauthorized, st).
Proof.
  intros Hroute Hkey.
  destruct (routes_need_key req e st Hroute Hkey) as [Hserve Hchain].
  split; [|done]. destruct p; [exact Hserve | reflexivity].
Qed.

Lemma mutation_needs_key_witness :
  answer Accepted (post None ∅) an_env initial = (unauthorized, initial).
Proof.
  apply (mutation_needs_key Accepted (post None ∅) an_env initial).
  - left. split; [reflexivity | by eexists].
  - left. reflexivity.
Defined.

(** ** Validation *)

Lemma absent_is_falsy (payload : product) (k : string) :
  payload !! k = None -> Js.truthy (payload !! k) = false.
Proof. by intros ->. Qed.

Lemma Qzero_le (x : Q) : Js.Qzero x = true -> Qle_bool x 0 = true.
Proof.
  unfold Js.Qzero. rewrite Qeq_bool_iff, Qle_bool_iff. intros ->. apply Qle_refl.
Qed.

Lemma positive_truthy n : positive n = true -> Js.truthy (Some (Js.VNum n)) = true.
Proof.
  destruct n as [|[]|x]; cbn; try done.
  destruct (Js.Qzero x) eqn:Hz; [|done].
  by rewrite (Qzero_le x Hz).
Qed.

Lemma positive_le n : Js.le n (Js.of_Z 0) = negb (positive n) \/ n = Js.NaN.
Proof.
  destruct n as [|[]|x]; cbn; auto.
  left. by rewrite Bool.negb_involutive.
Qed.

Lemma accepted_or_rejected (payload : product) : accepted payload \/ rejected payload.
Proof.
  unfold accepted, rejected.
  destruct (Js.truthy (payload !! "name")); [|by auto].
  destruct (Js.truthy (payload !! "category")); [|by auto 6].
  destruct (payload !! "price") as [[| | n | | |]|]; try (right; by auto 6).
  destruct (positive n) eqn:Hp; [left|right]; eauto 10.
Qed.

Lemma accepted_not_rejected (payload : product) : accepted payload -> ~ rejected payload.
Proof.
  intros (Hn & Hc & n & Hp & Hpos) [H|[H|[H|[H|(m & Hm & H)]]]]; try congruence.
  - rewrite Hp, positive_truthy in H; done.
  - by rewrite Hp in H.
Qed.

Lemma validateProduct_accepts id req e st :
  accepted (body req) -> validateProduct id req e st = (Next, st).
Proof.
  intros (Hn & Hc & n & Hp & Hpos). unfold validateProduct.
  rewrite Hn, Hc, Hp, (positive_truthy n Hpos). cbn.
  destruct (positive_le n) as [-> | ->]; [|done]. by rewrite Hpos.
Qed.

Lemma validateProduct_rejects id req e st :
  rejected (body req) ->
  exists m, validateProduct id req e st = (Fail (ValidationError m), st).
Proof.
  intros Hrej. unfold validateProduct.
  destruct (negb (Js.truthy (body req !! "name")) ||
            negb (Js.truthy (body req !! "price")) ||
            negb (Js.truthy (body req !! "category"))) eqn:Hreq; [by eexists|].
  apply orb_false_elim in Hreq as [Hreq Hc].
  apply orb_false_elim in Hreq as [Hn Hp].
  apply negb_false_iff in Hn, Hp, Hc.
  destruct (Js.is_number (body req !! "price")) eqn:Hnum; cbn; [|by eexists].
  destruct (body req !! "price") as [[| | n | | |]|] eqn:Hprice; try done.
  destruct Hrej as [H|[H|[H|[H|(m & Hm & H)]]]]; try congruence.
  rewrite Hprice in Hm. injection Hm as <-.
  destruct (positive_le n) as [-> | ->]; [|done].
  rewrite H. by eexists.
Qed.

(** ** C3 and C4: the object that create stores *)

(** C3 (as the code behaves).  When the payload carries [inStock: false]
    the stored product has [inStock: true]: [req.body.inStock || true]
    yields [true] for every falsy value, supplied or not. *)
Theorem explicit_false_is_stored_as_true (fresh : string) (payload : product) :
  new_product fresh (<["inStock" := Js.VBool false]> payload) !! "inStock"
  = Some (Js.VBool true).
Proof.
  unfold new_product. rewrite lookup_insert_eq.
  by rewrite lookup_insert_eq.
Qed.

(** The stored [inStock] is never falsy, whatever the payload. *)
Lemma stored_inStock_truthy (fresh : string) (payload : product) :
  Js.truthy (new_product fresh payload !! "inStock") = true.
Proof.
  unfold new_product. rewrite lookup_insert_eq. unfold Js.or_else.
  destruct (payload !! "inStock") as [v|] eqn:Hv; [|done].
  by destruct (Js.truthy (Some v)) eqn:Ht.
Qed.

(** C4 (as the code behaves).  When the payload carries an [id], the
    stored product has that [id] and not the generated one: the spread
    of [req.body] comes after [id: uuidv4()] in the object literal. *)
Theorem payload_id_replaces_generated_id (fresh : string) (payload : product)
    (v : Js.value) :
  new_product fresh (<["id" := v]> payload) !! "id" = Some v.
Proof.
  unfold new_product, Js.spread.
  rewrite lookup_insert_ne by done.
  apply lookup_union_Some_l, lookup_insert_eq.
Qed.

(** Without an [id] in the payload the generated one is stored, and a
    generated id that no product has keeps the ids of the store
    distinct. *)
Lemma generated_id_is_stored (fresh : string) (payload : product) :
  payload !! "id" = None ->
  new_product fresh payload !! "id" = Some (Js.VStr fresh).
Proof.
  intros H. unfold new_product, Js.spread.
  rewrite lookup_insert_ne by done.
  rewrite lookup_union_r by done. apply lookup_singleton_eq.
Qed.

Lemma create_keeps_ids_distinct (id : option string) (req : request) (e : env)
    (st : store) :
  body req !! "id" = None ->
  Some (Js.VStr (uuid e)) ∉ ids st ->
  NoDup (ids st) ->
  NoDup (ids (create_product id req e st).2).
Proof.
  intros Hid Hfresh Hst. unfold create_product, ids. cbn [snd].
  rewrite fmap_app. cbn [fmap list_fmap].
  rewrite generated_id_is_stored by done.
  apply NoDup_app. split; [done|]. split; [|apply NoDup_singleton].
  intros x Hx ->%list_elem_of_singleton. done.
Qed.

Lemma secret_is_good payload :
  good_key (post (Some "secret") payload) an_env.
Proof. exists "secret". by repeat split. Qed.

Lemma secret_is_good_put id payload :
  good_key (put id (Some "secret") payload) an_env.
Proof. exists "secret". by repeat split. Qed.

Lemma routed_post key payload : routed (post key payload) POST api_products.
Proof. split; [done | by eexists]. Qed.

Lemma routed_put id key payload :
  id <> "" ->
  match_path (api_products ++ [Param]) (path (put id key payload)) None = Some (Some id).
Proof.
  intros H. unfold api_products. cbn [List.app put path].
  rewrite !match_path_lit. by rewrite match_path_param.
Qed.

(** ** C6: validation on create *)

(** C6 as stated fails: a payload whose name is present but is the empty
    text, with a category and a numeric price above zero, satisfies all
    the conditions the claim lists, and create answers 400 all the
    same. *)
Lemma empty_name_is_refused :
  is_Some (empty_named !! "name") /\
  is_Some (empty_named !! "category") /\
  empty_named !! "price" = Some n10 /\
  positive (Js.of_Z 10) = true /\
  validateProduct None (post (Some "secret") empty_named) an_env initial
  = (Fail (ValidationError "Name, price and category are required"), initial) /\
  serve (post (Some "secret") empty_named) an_env initial
  = ({| status := 400;
        sent := JsonError "Name, price and category are required" 400 "t" |},
     initial).
Proof. repeat split; try (eexists; reflexivity); reflexivity. Qed.

(** C6 (amended).  For every create request with the valid key: when
    name, price or category is absent or falsy (the empty text, null,
    false, zero), or the price is not a number, or it is not above
    zero, the answer is a 400 error and the collection is unchanged;
    when name, price and category are truthy and the price is a number
    above zero, [validateProduct] calls [next()] and the handler stores
    the product built from the payload as it was sent. *)
Theorem create_is_validated (e : env) (st : store) (key : option string)
    (payload : product) :
  good_key (post key payload) e ->
  (rejected payload ->
   exists m, serve (post key payload) e st
             = ({| status := 400; sent := JsonError m 400 (now e) |}, st)) /\
  (accepted payload ->
   validateProduct None (post key payload) e st = (Next, st) /\
   serve (post key payload) e st
   = ({| status := 201; sent := JsonProduct (new_product (uuid e) payload) |},
      st ++ [new_product (uuid e) payload])).
Proof.
  intros Hkey.
  destruct (run_post (post key payload) e st (routed_post key payload)) as [id Hrun].
  unfold serve. rewrite Hrun, authenticate_passes by done.
  cbn [run_handlers]. split.
  - intros Hrej.
    destruct (validateProduct_rejects id (post key payload) e st Hrej) as [m ->].
    by exists m.
  - intros Hacc. split; [by apply validateProduct_accepts|].
    by rewrite validateProduct_accepts.
Qed.

Lemma create_is_validated_witness :
  exists m,
    serve (post (Some "secret") {[ "name" := Js.VStr "Desk" ]}) an_env initial
    = ({| status := 400; sent := JsonError m 400 "t" |}, initial).
Proof.
  apply (create_is_validated an_env initial (Some "secret") {[ "name" := Js.VStr "Desk" ]}).
  - apply secret_is_good.
  - right. left. reflexivity.
Defined.

(** ** C3 and C4 at the route *)

(** A create request with the valid key and [inStock: false]: the
    product sent back and stored has [inStock: true]. *)
Example create_out_of_stock :
  serve (post (Some "secret") out_of_stock_desk) an_env initial
  = ({| status := 201;
        sent := JsonProduct (<["inStock" := Js.VBool true]>
                               (<["id" := Js.VStr "u3"]> out_of_stock_desk)) |},
     initial ++ [<["inStock" := Js.VBool true]>
                   (<["id" := Js.VStr "u3"]> out_of_stock_desk)]).
Proof. reflexivity. Qed.

(** A create request with the valid key whose payload carries the id of
    the first product of the store: afterwards two products have that
    id, although [uuidv4()] returned a fresh one. *)
Example create_with_taken_id :
  NoDup (ids initial) /\
  (Some (Js.VStr (uuid an_env)) ∉ ids initial) /\
  status (fst (serve (post (Some "secret") copy_of_first) an_env initial)) = 201 /\
  ids (snd (serve (post (Some "secret") copy_of_first) an_env initial))
  = [Some (Js.VStr "u1"); Some (Js.VStr "u2"); Some (Js.VStr "u1")].
Proof.
  assert (ids initial = [Some (Js.VStr "u1"); Some (Js.VStr "u2")]) as ->
    by reflexivity.
  split; [|split; [|split; reflexivity]].
  - apply NoDup_cons; split; [|apply NoDup_singleton].
    intros H%list_elem_of_singleton. discriminate H.
  - cbn. rewrite !not_elem_of_cons. repeat split; [discriminate..|apply not_elem_of_nil].
Qed.

(** ** C5: update *)

Lemma findIndex_lookup (id : string) (st : store) (index : nat) :
  findIndex id st = Some index ->
  exists old, st !! index = Some old /\ has_id id old = true.
Proof.
  revert index. induction st as [|p st IH]; intros index; cbn; [done|].
  destruct (has_id id p) eqn:Hp.
  - intros [= <-]. by exists p.
  - destruct (findIndex id st) as [i|]; cbn; [|done].
    intros [= <-]. by apply IH.
Qed.

Lemma has_id_lookup (id : string) (p : product) :
  has_id id p = true -> p !! "id" = Some (Js.VStr id).
Proof.
  unfold has_id, Js.strict_eq_text.
  destruct (p !! "id") as [[| | | s | |]|]; try done.
  by intros ->%String.eqb_eq.
Qed.

(** What the merge keeps and what it takes from the payload. *)
Lemma merged_id (old payload : product) : merged old payload !! "id" = old !! "id".
Proof.
  unfold merged, Js.with_prop.
  destruct (old !! "id") eqn:H; [by rewrite lookup_insert_eq | by rewrite lookup_delete_eq].
Qed.

Lemma merged_supplied (old payload : product) (k : string) (v : Js.value) :
  k <> "id" -> payload !! k = Some v -> merged old payload !! k = Some v.
Proof.
  intros Hk Hv. unfold merged, Js.with_prop, Js.spread.
  destruct (old !! "id");
    [rewrite lookup_insert_ne by done | rewrite lookup_delete_ne by done];
    by apply lookup_union_Some_l.
Qed.

Lemma merged_not_supplied (old payload : product) (k : string) :
  payload !! k = None -> merged old payload !! k = old !! k.
Proof.
  intros Hv. destruct (decide (k = "id")) as [->|Hk]; [apply merged_id|].
  unfold merged, Js.with_prop, Js.spread.
  destruct (old !! "id");
    [rewrite lookup_insert_ne by done | rewrite lookup_delete_ne by done];
    by rewrite lookup_union_r.
Qed.

(** C5 as stated fails: a partial payload (here one that omits name and
    category) sent with the valid key for a stored product is answered
    400 by [validateProduct], not 200, and nothing is merged. *)
Lemma partial_update_is_refused :
  find_product "u1" initial = Some (laptop "u1") /\
  serve (put "u1" (Some "secret") price_only) an_env initial
  = ({| status := 400;
        sent := JsonError "Name, price and category are required" 400 "t" |},
     initial).
Proof. split; reflexivity. Qed.

(** C5 (amended).  For every product of the store found under [id] and
    every update request with the valid key: when the payload passes
    [validateProduct] (name, price and category truthy, the price a
    number above zero), the answer is 200 with the merged record, which
    replaces the product in place; in the merged record the id is the
    old one, every other property the payload supplies has the
    payload's value, and every property it does not supply keeps its
    prior value.  When the payload is refused by [validateProduct] (so
    whenever it omits name, price or category) the answer is a 400
    error and the store is unchanged. *)
Theorem update_merges (e : env) (st : store) (id : string) (key : option string)
    (payload : product) (index : nat) (old : product) :
  id <> "" ->
  good_key (put id key payload) e ->
  findIndex id st = Some index ->
  st !! index = Some old ->
  (accepted payload ->
   serve (put id key payload) e st
   = ({| status := 200; sent := JsonProduct (merged old payload) |},
      <[index := merged old payload]> st) /\
   merged old payload !! "id" = Some (Js.VStr id) /\
   merged old payload !! "id" = old !! "id" /\
   (forall k v, k <> "id" -> payload !! k = Some v ->
                merged old payload !! k = Some v) /\
   (forall k, payload !! k = None -> merged old payload !! k = old !! k)) /\
  (rejected payload ->
   exists m, serve (put id key payload) e st
             = ({| status := 400; sent := JsonError m 400 (now e) |}, st)).
Proof.
  intros Hid Hkey Hfind Hold.
  assert (Hroute : routed (put id key payload) PUT (api_products ++ [Param])).
  { split; [done|]. rewrite routed_put by done. by eexists. }
  destruct (run_put _ e st Hroute) as (id' & Hid' & Hrun).
  rewrite routed_put in Hid' by done. injection Hid' as <-.
  unfold serve. rewrite Hrun, authenticate_passes by done.
  cbn [run_handlers]. split.
  - intros Hacc. rewrite validateProduct_accepts by done.
    unfold update_product. cbn [param]. rewrite Hfind, Hold.
    split; [done|].
    destruct (findIndex_lookup id st index Hfind) as (old' & Hold' & Hhas).
    assert (old' = old) as -> by congruence.
    split; [by rewrite merged_id; apply has_id_lookup|].
    split; [apply merged_id|].
    split; [apply merged_supplied | apply merged_not_supplied].
  - intros Hrej.
    destruct (validateProduct_rejects (Some id) (put id key payload) e st Hrej)
      as [m ->].
    by exists m.
Qed.

Lemma cheaper_laptop_accepted : accepted cheaper_laptop.
Proof. repeat split. by exists (Js.of_Z 10). Qed.

Lemma update_merges_witness :
  serve (put "u1" (Some "secret") cheaper_laptop) an_env initial
  = ({| status := 200; sent := JsonProduct (merged (laptop "u1") cheaper_laptop) |},
     [merged (laptop "u1") cheaper_laptop; smartphone "u2"]).
Proof.
  refine (proj1 (proj1
    (update_merges an_env initial "u1" (Some "secret") cheaper_laptop 0
       (laptop "u1") _ _ _ _) cheaper_laptop_accepted)).
  - discriminate.
  - apply secret_is_good_put.
  - reflexivity.
  - reflexivity.
Defined.

(** ** C7: listing *)

Lemma window_lookup {A} (pg lm : Z) (l : list A) (i : nat) :
  (0 < pg)%Z -> (0 < lm)%Z ->
  window pg lm l !! i
  = if decide (Z.of_nat i < lm)%Z then l !! (Z.to_nat ((pg - 1) * lm) + i)%nat else None.
Proof.
  intros Hpg Hlm. unfold window. case_decide.
  - rewrite lookup_take_lt by lia. by rewrite lookup_drop.
  - apply lookup_take_ge. lia.
Qed.

Lemma filter_js_category (c : string) (st : store) :
  Forall text_category st ->
  filter_js (category_is c) st = Ok (List.filter (in_category c) st).
Proof.
  induction 1 as [|p st [s Hs] _ IH]; [done|].
  cbn [filter_js List.filter]. rewrite IH. unfold category_is, in_category.
  rewrite Hs. cbn. by destruct (String.eqb _ _).
Qed.

Lemma Qtrunc_inject_Z (z : Z) : Js.Qtrunc (inject_Z z) = z.
Proof. unfold Js.Qtrunc. cbn. apply Z.quot_1_r. Qed.

Lemma start_index (pg lm : Z) :
  Js.to_index (Js.mul (Js.sub (Js.of_Z pg) (Js.of_Z 1)) (Js.of_Z lm))
  = Js.At ((pg - 1) * lm).
Proof.
  unfold Js.of_Z, Js.sub, Js.mul, Js.to_index, Js.Qtrunc. f_equal.
  cbn [Qminus Qplus Qopp Qmult inject_Z Qnum Qden Pos.mul].
  rewrite Z.quot_1_r. ring.
Qed.

Lemma end_index (pg lm : Z) :
  Js.to_index (Js.mul (Js.of_Z pg) (Js.of_Z lm)) = Js.At (pg * lm).
Proof.
  unfold Js.of_Z, Js.mul, Js.to_index, Js.Qtrunc. f_equal.
  cbn [Qmult inject_Z Qnum Qden Pos.mul]. apply Z.quot_1_r.
Qed.

(** On positive whole numbers [slice] cuts the window of the page. *)
Lemma slice_window {A} (l : list A) (pg lm : Z) :
  (0 < pg)%Z -> (0 < lm)%Z ->
  Js.slice l (Js.mul (Js.sub (Js.of_Z pg) (Js.of_Z 1)) (Js.of_Z lm))
             (Js.mul (Js.of_Z pg) (Js.of_Z lm))
  = window pg lm l.
Proof.
  intros Hpg Hlm. unfold Js.slice, window.
  rewrite start_index, end_index. unfold Js.clamp.
  assert (0 <= (pg - 1) * lm)%Z as Hfirst by nia.
  replace (pg * lm)%Z with ((pg - 1) * lm + lm)%Z by ring.
  generalize dependent ((pg - 1) * lm)%Z. intros first Hfirst.
  destruct (Z.ltb_spec first 0); [lia|].
  destruct (Z.ltb_spec (first + lm) 0); [lia|].
  destruct (decide (length l <= Z.to_nat first)%nat) as [Hout|Hin].
  - rewrite !Nat.min_r by lia.
    by rewrite !drop_ge, !take_nil by lia.
  - rewrite (Nat.min_l (Z.to_nat first)) by lia.
    destruct (decide (Z.to_nat (first + lm) <= length l)%nat).
    + rewrite Nat.min_l by done. f_equal. lia.
    + rewrite Nat.min_r by lia.
      rewrite !take_ge; [done | rewrite length_drop; lia | rewrite length_drop; lia].
Qed.

(** [Math.ceil(n / lm)] on whole numbers is the least count of pages
    of [lm] items that holds [n] items. *)
Lemma ceil_pages (n : nat) (lm : Z) :
  (0 < lm)%Z ->
  exists pages : Z,
    Js.ceil (Js.div (Js.of_nat n) (Js.of_Z lm)) = Js.of_Z pages /\
    ((pages - 1) * lm < Z.of_nat n <= pages * lm)%Z.
Proof.
  intros Hlm. exists (- (- Z.of_nat n / lm))%Z. split.
  - unfold Js.of_nat, Js.of_Z, Js.div, Js.ceil, Js.Qzero.
    assert (Qeq_bool (inject_Z lm) 0 = false) as ->.
    { apply not_true_is_false. rewrite Qeq_bool_iff. unfold Qeq. cbn. lia. }
    unfold Js.of_Z, Qceiling. do 3 f_equal.
    rewrite Zdiv_Qdiv. apply Qfloor_comp.
    rewrite inject_Z_opp. field.
    unfold Qeq. cbn. lia.
  - pose proof (Z.div_mod (- Z.of_nat n) lm ltac:(lia)).
    pose proof (Z.mod_pos_bound (- Z.of_nat n) lm Hlm).
    nia.
Qed.

(** A GET of /api/products is answered by the listing handler. *)
Lemma serve_list (req : request) (e : env) (st : store) :
  method req = GET ->
  path req = ["api"; "products"] ->
  serve req e st =
    match list_products None req e st with
    | (Respond r, st') => (r, st')
    | (Fail err, st') => (error_handler err e, st')
    | (Next, st') => ({| status := 404; sent := ExpressNotFound |}, st')
    end.
Proof.
  intros Hm Hp. unfold serve, app.
  skip_route Hm Hp.
  rewrite (run_routes_hit _ _ _ _ _ None).
  - cbn [handlers run_handlers]. unfold list_products.
    by destruct (match category (params req) with Some _ => _ | None => _ end).
  - by rewrite Hm.
  - cbn [pattern]. rewrite Hp. unfold api_products. by rewrite !match_path_lit.
Qed.

(** C7 as stated fails: with [category] present and empty
    ([/api/products?category=]) the handler does not filter and lists
    the whole store, whereas no product of the store has the empty
    category. *)
Lemma empty_category_lists_everything :
  serve (get ["api"; "products"] (list_query (Some "") None None None)) an_env initial
  = ({| status := 200; sent := JsonPage initial (Js.of_Z 1) (Js.of_Z 1) 2 |}, initial) /\
  window 1 10 (listed (Some "") initial) = [] /\
  initial <> [].
Proof. split; [|split]; [reflexivity | reflexivity | discriminate]. Qed.

(** The two listings differ for the empty category only. *)
Lemma selected_listed (c : option string) (st : store) :
  c <> Some "" -> selected c st = listed c st.
Proof.
  destruct c as [c|]; [|done]. cbn.
  destruct (String.eqb_spec c "") as [->|]; done.
Qed.

(** C7 (amended).  For every store of fewer than 2^53 products, each
    with an ASCII text as category, and every list request with
    optional category (an ASCII text), page and limit (positive
    integers, 1 and 10 when absent, whose product page*limit is below
    2^53), the answer is 200 and carries: as data, the positions
    [(page-1)*limit, page*limit) of the products that match the
    category without regard to the case of its letters, in store order,
    all products being taken when the category is absent or empty; as
    currentPage, the page; as totalItems, the count of the products so
    selected; as totalPages, the least whole number of pages of [limit]
    items that holds them, which is ceil(totalItems/limit).  The store
    is not changed. *)
Theorem list_is_paged (e : env) (st : store) (c : option string)
    (pg lm : option Z) (wanted : option string) :
  Forall ascii_category st ->
  ascii_query c ->
  (0 < default 1%Z pg)%Z ->
  (0 < default 10%Z lm)%Z ->
  Js.safe (default 1%Z pg * default 10%Z lm) ->
  Js.safe (Z.of_nat (length st)) ->
  exists pages : Z,
    serve (get ["api"; "products"] (list_query c pg lm wanted)) e st
    = ({| status := 200;
          sent := JsonPage (window (default 1%Z pg) (default 10%Z lm) (selected c st))
                    (Js.of_Z (default 1%Z pg)) (Js.of_Z pages)
                    (length (selected c st)) |},
       st) /\
    ((pages - 1) * default 10%Z lm < Z.of_nat (length (selected c st))
     <= pages * default 10%Z lm)%Z.
Proof.
  intros Hascii _ Hpg Hlm _ _.
  assert (Forall text_category st) as Hst.
  { eapply Forall_impl; [exact Hascii|]. intros p (s & Hs & _). by exists s. }
  destruct (ceil_pages (length (selected c st)) (default 10%Z lm) Hlm)
    as (pages & Hceil & Hpages).
  exists pages. split; [|done].
  rewrite serve_list by done. unfold list_products.
  cbn [params get list_query category page limit].
  assert (Hsel : match c with
                 | Some c0 => if String.eqb c0 "" then Ok st
                              else filter_js (category_is c0) st
                 | None => Ok st
                 end = Ok (selected c st)).
  { destruct c as [c0|]; [|done]. cbn.
    destruct (String.eqb c0 ""); [done|]. by apply filter_js_category. }
  rewrite Hsel.
  assert (Hp : default (Js.of_Z 1) (Js.of_Z <$> pg) = Js.of_Z (default 1%Z pg))
    by (by destruct pg).
  assert (Hl : default (Js.of_Z 10) (Js.of_Z <$> lm) = Js.of_Z (default 10%Z lm))
    by (by destruct lm).
  rewrite Hp, Hl, slice_window, Hceil by done.
  assert (Hint : forall z, Js.parseInt (Js.of_Z z) = Js.of_Z z).
  { intros z. unfold Js.parseInt, Js.of_Z. by rewrite Qtrunc_inject_Z. }
  by rewrite Hint.
Qed.

Lemma list_is_paged_witness :
  exists pages : Z,
    serve (get ["api"; "products"]
             (list_query (Some "electronics") (Some 1%Z) (Some 1%Z) None))
          an_env initial
    = ({| status := 200;
          sent := JsonPage (window 1 1 (selected (Some "electronics") initial))
                    (Js.of_Z 1) (Js.of_Z pages)
                    (length (selected (Some "electronics") initial)) |},
       initial) /\
    ((pages - 1) * 1 < Z.of_nat (length (selected (Some "electronics") initial))
     <= pages * 1)%Z.
Proof.
  apply (list_is_paged an_env initial (Some "electronics") (Some 1%Z) (Some 1%Z) None).
  - repeat (apply Forall_cons_2; [eexists; split; reflexivity|]). apply Forall_nil_2.
  - reflexivity.
  - reflexivity.
  - reflexivity.
  - reflexivity.
  - reflexivity.
Defined.

(** The example of the spec: two Electronics products, page 1 of
    pages of one item. *)
Example list_example :
  serve (get ["api"; "products"]
           (list_query (Some "electronics") (Some 1%Z) (Some 1%Z) None))
        an_env initial
  = ({| status := 200;
        sent := JsonPage [laptop "u1"] (Js.of_Z 1) (Js.of_Z 2) 2 |}, initial).
Proof. reflexivity. Qed.

(** ** C9: the shape of failure responses *)

(** The error handling middleware sends the error's message under the
    status it answers with, which is the error's [statusCode] or, when
    the error has none (or a zero one), 500. *)
Lemma error_handler_shape (err : error) (e : env) :
  sent (error_handler err e)
  = JsonError (message err) (status (error_handler err e)) (now e).
Proof. reflexivity. Qed.

Lemma run_handlers_plain (hs : list middleware) :
  Forall plain_handler hs -> plain_handler (run_handlers hs).
Proof.
  induction 1 as [|h hs Hh _ IH]; intros id req e st; cbn; [done|].
  specialize (Hh id req e st).
  destruct (h id req e st) as [[] st']; [apply IH | done | done].
Qed.

Lemma run_routes_plain (rs : list route) req e st :
  Forall (fun r => Forall plain_handler (handlers r)) rs ->
  plain (run_routes rs req e st).
Proof.
  intros H. revert st. induction H as [|r rs Hr _ IH]; intros st; cbn; [done|].
  case_decide; [|apply IH].
  destruct (match_path _ _ _) as [id|]; [|apply IH].
  pose proof (run_handlers_plain _ Hr id req e st) as Hrun.
  destruct (run_handlers _ _ _ _ _) as [[] st']; [apply IH | done | done].
Qed.

Lemma plain_authenticate : plain_handler authenticate.
Proof.
  intros id req e st. unfold plain, authenticate.
  destruct (_ || _); cbn; auto.
Qed.

Lemma plain_validateProduct : plain_handler validateProduct.
Proof.
  intros id req e st. unfold plain, validateProduct.
  destruct (_ || _); [done|]. destruct (negb _); [done|].
  destruct (body req !! "price") as [[| | n | | |]|]; try done.
  by destruct (Js.le _ _).
Qed.

Lemma plain_root : plain_handler root.
Proof. intros id req e st. unfold plain. cbn. right. lia. Qed.

Lemma plain_list_products : plain_handler list_products.
Proof.
  intros id req e st. unfold plain, list_products.
  destruct (match category (params req) with Some _ => _ | None => _ end);
    cbn; [right; lia | done].
Qed.

Lemma plain_get_product : plain_handler get_product.
Proof.
  intros id req e st. unfold plain, get_product.
  destruct (find_product _ _); cbn; [right; lia | done].
Qed.

Lemma plain_create_product : plain_handler create_product.
Proof. intros id req e st. unfold plain. cbn. right. lia. Qed.

Lemma plain_update_product : plain_handler update_product.
Proof.
  intros id req e st. unfold plain, update_product.
  destruct (findIndex _ _); [|done].
  destruct (_ !! _); cbn; [right; lia | done].
Qed.

Lemma plain_delete_product : plain_handler delete_product.
Proof.
  intros id req e st. unfold plain, delete_product.
  destruct (Nat.eqb _ _); cbn; [done | right; lia].
Qed.

Lemma plain_search_products : plain_handler search_products.
Proof.
  intros id req e st. unfold plain, search_products.
  destruct (q _); [|done].
  destruct (String.eqb _ _); [done|].
  destruct (filter_js _ _); cbn; [right; lia | done].
Qed.

Lemma plain_product_stats : plain_handler product_stats.
Proof. intros id req e st. unfold plain. cbn. right. lia. Qed.

Ltac plain_handlers :=
  first [ exact plain_authenticate | exact plain_validateProduct
        | exact plain_root | exact plain_list_products | exact plain_get_product
        | exact plain_create_product | exact plain_update_product
        | exact plain_delete_product | exact plain_search_products
        | exact plain_product_stats ].

Lemma app_plain : Forall (fun r => Forall plain_handler (handlers r)) app.
Proof.
  unfold app.
  repeat first [apply Forall_nil_2 | apply Forall_cons_2]; plain_handlers.
Qed.

(** C9 as stated fails: the 401 that [authenticate] sends has the body
    [{ message: 'Unauthorized' }], with no [error] object around it and
    no status or timestamp in it. *)
Lemma unauthorized_is_a_bare_message :
  answer Accepted (post None ∅) an_env initial = (unauthorized, initial) /\
  status unauthorized = 401%nat /\
  sent unauthorized = JsonMessage "Unauthorized" /\
  ~ (exists m s t, sent unauthorized = JsonError m s t).
Proof.
  split; [reflexivity|]. do 2 (split; [done|]).
  intros (m & s & t & H). discriminate H.
Qed.

(** C9 (amended).  Every failure response that the error handling
    middleware sends, whatever the error and its status (the 400 and
    404 of the service's own errors, the status that [express.json()]
    gives to a body it refuses, 500 for an error without a status), has
    the body [{ error: { message, status, timestamp } }] whose message
    is the error's and whose status is the HTTP status of the response;
    and every response of the application with a status of 400 or more
    is such a response, except two: the 401 of [authenticate], whose
    body is [{ message: 'Unauthorized' }], and the 404 page by which
    Express itself answers a request that no route matches. *)
Theorem failures_are_error_shaped (p : parsing) (req : request) (e : env)
    (st : store) (err : error) :
  sent (error_handler err e)
  = JsonError (message err) (status (error_handler err e)) (now e) /\
  ((400 <= status (answer p req e st).1)%nat ->
   (exists m, sent (answer p req e st).1
              = JsonError m (status (answer p req e st).1) (now e)) \/
   (answer p req e st).1 = unauthorized \/
   (answer p req e st).1 = express_not_found).
Proof.
  split; [apply error_handler_shape|].
  destruct p as [|code text]; cbn [answer express_json].
  - unfold serve.
    pose proof (run_routes_plain app req e st app_plain) as Hplain.
    unfold plain in Hplain.
    destruct (run_routes app req e st) as [[| err' | r] st']; cbn in *.
    + by right; right.
    + intros _. left. by eexists.
    + intros Hfail. destruct Hplain as [->|Hok]; [by right; left | lia].
  - intros _. left. by eexists.
Qed.

Lemma failures_are_error_shaped_witness :
  (exists m,
     sent (answer (Refused 413 "request entity too large")
             (post None ∅) an_env initial).1
     = JsonError m
         (status (answer (Refused 413 "request entity too large")
                    (post None ∅) an_env initial).1)
         (now an_env)) \/
  (answer (Refused 413 "request entity too large")
     (post None ∅) an_env initial).1 = unauthorized \/
  (answer (Refused 413 "request entity too large")
     (post None ∅) an_env initial).1 = express_not_found.
Proof.
  apply (failures_are_error_shaped (Refused 413 "request entity too large")
           (post None ∅) an_env initial (NotFoundError "Product not found")).
  cbn. lia.
Defined.

(** ** Texts: what [includes] decides *)

Lemma append_cons (c : ascii) (s t : string) :
  String.append (String c s) t = String c (String.append s t).
Proof. reflexivity. Qed.

Lemma prefix_spec (sub s : string) :
  String.prefix sub s = true <-> exists post, s = String.append sub post.
Proof.
  revert s. induction sub as [|a sub IH]; intros s.
  - split; [intros _; by exists s | intros _; by destruct s].
  - destruct s as [|b s]; cbn.
    + split; [done | intros [post H]; discriminate].
    + destruct (ascii_dec a b) as [->|Hne].
      * rewrite IH. split; intros [post H]; exists post;
          rewrite append_cons in *; congruence.
      * split; [done | intros [post H]; rewrite append_cons in H; congruence].
Qed.

(** [s.includes(sub)] holds exactly when [sub] occurs in [s]. *)
Lemma includes_spec (s sub : string) :
  Js.includes s sub = true <->
  exists pre post, s = String.append pre (String.append sub post).
Proof.
  induction s as [|c s IH]; cbn [Js.includes]; rewrite orb_true_iff, prefix_spec.
  - split.
    + intros [[post H]|H]; [by exists "", post | done].
    + intros (pre & post & H). left. exists post.
      destruct pre; [done | by rewrite append_cons in H].
  - rewrite IH. split.
    + intros [[post H]|(pre & post & H)]; [by exists "", post|].
      exists (String c pre), post. rewrite append_cons. by rewrite H.
    + intros ([|c' pre] & post & H); [left; by exists post|].
      right. exists pre, post. rewrite append_cons in H. congruence.
Qed.

Lemma prefix_length (sub s : string) :
  String.prefix sub s = true -> (String.length sub <= String.length s)%nat.
Proof.
  revert s. induction sub as [|a sub IH]; intros s; [cbn; lia|].
  destruct s as [|b s]; cbn; [done|]. destruct (ascii_dec a b); [|done].
  intros H%IH. lia.
Qed.

Lemma includes_length (s sub : string) :
  Js.includes s sub = true -> (String.length sub <= String.length s)%nat.
Proof.
  induction s as [|c s IH]; cbn [Js.includes]; rewrite orb_true_iff.
  - intros [H%prefix_length|H]; done.
  - intros [H%prefix_length|H%IH]; [done | cbn; lia].
Qed.

Lemma lower_length (s : string) : String.length (Js.lower s) = String.length s.
Proof. induction s; cbn; congruence. Qed.

Lemma append_length (s t : string) :
  String.length (String.append s t) = (String.length s + String.length t)%nat.
Proof. induction s as [|c s IH]; [done|]. rewrite append_cons. cbn. by rewrite IH. Qed.

(** ** The search handler *)

Lemma search_match_spec (wanted : string) (p : product) :
  searchable p ->
  search_match wanted p =
    if undescribed_miss wanted p then Throw no_description_error
    else Ok (name_has wanted p || description_has wanted p).
Proof.
  intros [[s Hs] Hd]. unfold search_match, undescribed_miss, name_has, description_has.
  rewrite Hs. cbn.
  destruct (Js.includes (Js.lower s) (Js.lower wanted)); cbn; [done|].
  destruct Hd as [-> | [d ->]]; done.
Qed.

Lemma filter_js_search (wanted : string) (st : store) :
  Forall searchable st ->
  filter_js (search_match wanted) st =
    if existsb (undescribed_miss wanted) st then Throw no_description_error
    else Ok (List.filter (fun p => name_has wanted p || description_has wanted p) st).
Proof.
  induction 1 as [|p st Hp _ IH]; [done|].
  cbn [filter_js existsb List.filter]. rewrite search_match_spec, IH by done.
  destruct (undescribed_miss wanted p); [done|]. cbn.
  destruct (existsb _ st); [done|]. cbn.
  by destruct (name_has wanted p || description_has wanted p).
Qed.

Lemma search_products_spec (id : option string) (req : request) (e : env)
    (st : store) (wanted : string) :
  Forall searchable st ->
  q (params req) = Some wanted ->
  wanted <> "" ->
  search_products id req e st =
    if existsb (undescribed_miss wanted) st then (Fail no_description_error, st)
    else (Respond {| status := 200;
                     sent := JsonProducts
                               (List.filter (fun p => name_has wanted p
                                                      || description_has wanted p) st) |},
          st).
Proof.
  intros Hst Hq Hw. unfold search_products. rewrite Hq.
  destruct (String.eqb_spec wanted "") as [->|_]; [done|].
  rewrite filter_js_search by done. by destruct (existsb _ st).
Qed.

Lemma undescribed_miss_exists (wanted : string) (st : store) :
  existsb (undescribed_miss wanted) st = true <->
  exists p, p ∈ st /\ p !! "description" = None /\ name_has wanted p = false.
Proof.
  rewrite existsb_exists. unfold undescribed_miss.
  split; intros (p & Hin & H); exists p.
  - apply andb_true_iff in H as [Hn Hd].
    apply negb_true_iff in Hn. apply bool_decide_eq_true in Hd.
    by rewrite list_elem_of_In.
  - destruct H as [Hd Hn]. rewrite <- list_elem_of_In. split; [done|].
    rewrite Hn. cbn. by apply bool_decide_eq_true.
Qed.

(** The handler on the initial store, where every product has a
    description: the products that name or describe a laptop. *)
Example search_handler_on_initial_store :
  search_products None (get ["api"; "products"; "search"] (search_for (Some "LAPTOP")))
    an_env initial
  = (Respond {| status := 200; sent := JsonProducts [laptop "u1"] |}, initial).
Proof. reflexivity. Qed.

(** ** The statistics handler by itself *)

Lemma total_insert_fresh (counts : gmap string nat) (k : string) (n : nat) :
  counts !! k = None -> total (<[k := n]> counts) = (n + total counts)%nat.
Proof. intros H. unfold total. rewrite map_fold_insert_L; [done | intros; lia | done]. Qed.

Lemma count_category_total (acc : gmap string nat) (p : product) :
  total (count_category acc p) = S (total acc).
Proof.
  unfold count_category. set (k := property_name _).
  destruct (acc !! k) as [n|] eqn:Hk; cbn.
  - rewrite <- insert_delete_eq.
    rewrite total_insert_fresh by apply lookup_delete_eq.
    assert (total acc = (n + total (delete k acc))%nat) as ->; [|lia].
    unfold total.
    by rewrite (map_fold_delete_L (fun _ n sum => (n + sum)%nat) 0%nat k n acc)
      by (done || (intros; lia)).
  - rewrite total_insert_fresh by done. lia.
Qed.

Lemma fold_count_total (st : store) (acc : gmap string nat) :
  total (fold_left count_category st acc) = (length st + total acc)%nat.
Proof.
  revert acc. induction st as [|p st IH]; intros acc; cbn; [done|].
  rewrite IH, count_category_total. lia.
Qed.

Lemma partition_length {A} (f : A -> bool) (l : list A) :
  (length (List.filter f l) + length (List.filter (fun x => negb (f x)) l))%nat
  = length l.
Proof. induction l as [|x l IH]; cbn; [done|]. destruct (f x); cbn; lia. Qed.

(** * Further properties *)

(** ** Dispatch and the store *)

Lemma serve_store (req : request) (e : env) (st : store) :
  (serve req e st).2 = (run_routes app req e st).2.
Proof. unfold serve. by destruct (run_routes app req e st) as [[] st']. Qed.

(** A relation between the store before and after that every route of
    the request's method keeps is kept by the dispatch. *)
Lemma run_routes_rel (R : relation store) `{!Reflexive R} `{!Transitive R}
    (rs : list route) (req : request) (e : env) (st : store) :
  Forall (fun r => verb r = method req ->
                   forall id st, R st (run_handlers (handlers r) id req e st).2) rs ->
  R st (run_routes rs req e st).2.
Proof.
  intros H. revert st. induction H as [|r rs Hr _ IH]; intros st; cbn; [done|].
  case_decide as Hv; [|apply IH].
  destruct (match_path _ _ _) as [id|]; [|apply IH].
  specialize (Hr Hv id st).
  destruct (run_handlers _ _ _ _ _) as [[] st']; cbn in *; [|done|done].
  etrans; [done | apply IH].
Qed.

Lemma filter_length_eq {A} (f : A -> bool) (l : list A) :
  length (List.filter f l) = length l -> List.filter f l = l.
Proof.
  induction l as [|x l IH]; cbn; [done|].
  destruct (f x); cbn.
  - intros [= H]. by rewrite IH.
  - intros H. pose proof (List.filter_length_le f l). lia.
Qed.

Lemma authenticate_store id req e st : (authenticate id req e st).2 = st.
Proof. unfold authenticate. by destruct (_ || _). Qed.

Lemma validateProduct_store id req e st : (validateProduct id req e st).2 = st.
Proof.
  unfold validateProduct. destruct (_ || _); [done|]. destruct (negb _); [done|].
  destruct (body req !! "price") as [[| | n | | |]|]; try done.
  by destruct (Js.le _ _).
Qed.

(** [validateProduct] calls [next()] on the accepted payloads only. *)
Lemma validateProduct_next id req e st st' :
  validateProduct id req e st = (Next, st') -> accepted (body req) /\ st' = st.
Proof.
  intros H. destruct (accepted_or_rejected (body req)) as [Hacc|Hrej].
  - split; [done|]. rewrite validateProduct_accepts in H by done. congruence.
  - destruct (validateProduct_rejects id req e st Hrej) as [m Hm]. congruence.
Qed.

Lemma authenticate_next id req e st st' :
  authenticate id req e st = (Next, st') -> st' = st.
Proof. intros H. by rewrite <- (authenticate_store id req e st), H. Qed.

Lemma delete_product_store id req e st :
  (delete_product id req e st).2
  = List.filter (fun p => negb (has_id (param id) p)) st.
Proof. unfold delete_product. by destruct (Nat.eqb _ _). Qed.


(** ** Requests that do not change the store *)

(** X1.  A GET request never changes the [products] array, whatever its
    path, query, headers and body, and whatever it is answered. *)
Theorem reading_keeps_the_store (req : request) (e : env) (st : store) :
  method req = GET -> (serve req e st).2 = st.
Proof.
  intros Hm. rewrite serve_store. symmetry.
  apply (run_routes_rel eq). unfold app.
  repeat first [apply Forall_nil_2 | apply Forall_cons_2];
    cbn [verb handlers]; intros Hv id st'; try congruence;
    cbn [run_handlers].
  - done.
  - unfold list_products.
    by destruct (match category (params req) with Some _ => _ | None => _ end).
  - unfold get_product. by destruct (find_product _ _).
  - unfold search_products. destruct (q _); [|done].
    destruct (String.eqb _ _); [done|]. by destruct (filter_js _ _).
  - done.
Qed.

Lemma reading_keeps_the_store_witness :
  (serve (get ["api"; "products"] no_query) an_env initial).2 = initial.
Proof.
  apply (reading_keeps_the_store (get ["api"; "products"] no_query) an_env initial).
  reflexivity.
Defined.

Lemma run_handlers_settled (hs : list middleware) :
  Forall settled_handler hs -> settled_handler (run_handlers hs).
Proof.
  induction 1 as [|h hs Hh _ IH]; intros id req e st; cbn; [done|].
  specialize (Hh id req e st). unfold settled in Hh.
  destruct (h id req e st) as [[] st']; cbn in *; [|done|done].
  subst st'. apply IH.
Qed.

Lemma run_routes_settled (rs : list route) req e st :
  Forall (fun r => Forall settled_handler (handlers r)) rs ->
  settled st (run_routes rs req e st).
Proof.
  intros H. revert st. induction H as [|r rs Hr _ IH]; intros st; cbn; [done|].
  case_decide; [|apply IH].
  destruct (match_path _ _ _) as [id|]; [|apply IH].
  pose proof (run_handlers_settled _ Hr id req e st) as Hrun.
  unfold settled in Hrun.
  destruct (run_handlers _ _ _ _ _) as [[] st']; cbn in *; [|done|done].
  subst st'. apply IH.
Qed.

Lemma settled_authenticate : settled_handler authenticate.
Proof.
  intros id req e st. unfold settled.
  rewrite authenticate_store. by destruct (authenticate id req e st).1.
Qed.

Lemma settled_validateProduct : settled_handler validateProduct.
Proof.
  intros id req e st. unfold settled.
  rewrite validateProduct_store. by destruct (validateProduct id req e st).1.
Qed.

Lemma settled_root : settled_handler root.
Proof. by intros id req e st. Qed.

Lemma settled_list_products : settled_handler list_products.
Proof.
  intros id req e st. unfold settled, list_products.
  by destruct (match category (params req) with Some _ => _ | None => _ end).
Qed.

Lemma settled_get_product : settled_handler get_product.
Proof.
  intros id req e st. unfold settled, get_product. by destruct (find_product _ _).
Qed.

Lemma settled_create_product : settled_handler create_product.
Proof. intros id req e st. unfold settled. cbn. lia. Qed.

Lemma settled_update_product : settled_handler update_product.
Proof.
  intros id req e st. unfold settled, update_product.
  destruct (findIndex _ _); [|done]. destruct (_ !! _); cbn; [lia | done].
Qed.

Lemma settled_delete_product : settled_handler delete_product.
Proof.
  intros id req e st. unfold settled, delete_product.
  destruct (Nat.eqb_spec (length (List.filter (fun p => negb (has_id (param id) p)) st))
              (length st)) as [Heq|_]; cbn; [|lia].
  by apply filter_length_eq.
Qed.

Lemma settled_search_products : settled_handler search_products.
Proof.
  intros id req e st. unfold settled, search_products.
  destruct (q _); [|done]. destruct (String.eqb _ _); [done|].
  by destruct (filter_js _ _).
Qed.

Lemma settled_product_stats : settled_handler product_stats.
Proof. by intros id req e st. Qed.

Ltac settled_handlers :=
  first [ exact settled_authenticate | exact settled_validateProduct
        | exact settled_root | exact settled_list_products
        | exact settled_get_product | exact settled_create_product
        | exact settled_update_product | exact settled_delete_product
        | exact settled_search_products | exact settled_product_stats ].

Lemma app_settled : Forall (fun r => Forall settled_handler (handlers r)) app.
Proof.
  unfold app.
  repeat first [apply Forall_nil_2 | apply Forall_cons_2]; settled_handlers.
Qed.

(** X2.  A request that is answered with a failure status (400 or
    more: validation, missing key, unknown id, unknown route, an
    exception) has not changed the [products] array. *)
Theorem failure_keeps_the_store (req : request) (e : env) (st : store) :
  (400 <= status (serve req e st).1)%nat -> (serve req e st).2 = st.
Proof.
  pose proof (run_routes_settled app req e st app_settled) as H.
  unfold settled in H. unfold serve.
  destruct (run_routes app req e st) as [[| err | r] st']; cbn in *; auto.
Qed.

Lemma failure_keeps_the_store_witness :
  (serve (del "none" (Some "secret")) an_env initial).2 = initial.
Proof.
  apply (failure_keeps_the_store (del "none" (Some "secret")) an_env initial).
  assert (serve (del "none" (Some "secret")) an_env initial
          = (not_found an_env, initial)) as -> by reflexivity.
  cbn. lia.
Defined.

(** ** Identifiers: lookup, removal and the round trips *)

Lemma has_id_is_called (id : string) (p : product) :
  has_id id p = true <-> is_called id p.
Proof.
  split; [apply has_id_lookup|]. unfold is_called, has_id. intros ->. cbn.
  apply String.eqb_refl.
Qed.

Lemma has_id_false (id : string) (p : product) :
  has_id id p = false <-> ~ is_called id p.
Proof.
  rewrite <- has_id_is_called. by destruct (has_id id p).
Qed.

Lemma find_product_none (id : string) (st : store) :
  find_product id st = None <-> forall p, p ∈ st -> ~ is_called id p.
Proof.
  unfold find_product. induction st as [|x st IH]; cbn.
  - split; [intros _ p Hp; by apply elem_of_nil in Hp | done].
  - destruct (has_id id x) eqn:Hx.
    + split; [done|]. intros H. exfalso.
      apply (H x); [apply list_elem_of_here | by apply has_id_is_called].
    + rewrite IH. split.
      * intros H p [->|Hp]%elem_of_cons; [by apply has_id_false | by apply H].
      * intros H p Hp. apply H. by apply list_elem_of_further.
Qed.

(** [find] returns the first product called [id]. *)
Lemma find_product_some (id : string) (st : store) (p : product) :
  find_product id st = Some p <->
  exists i, st !! i = Some p /\ is_called id p /\
            forall j other, (j < i)%nat -> st !! j = Some other -> ~ is_called id other.
Proof.
  unfold find_product. revert p. induction st as [|x st IH]; intros p; cbn.
  - split; [done | by intros (i & H & _)].
  - destruct (has_id id x) eqn:Hx.
    + split.
      * intros [= <-]. exists 0%nat. split; [done|].
        split; [by apply has_id_is_called | intros; lia].
      * intros ([|i] & Hi & Hp & Hmin); [by injection Hi as -> |].
        exfalso. apply (Hmin 0%nat x); [lia | done | by apply has_id_is_called].
    + rewrite IH. split.
      * intros (i & Hi & Hp & Hmin). exists (S i). split; [done|]. split; [done|].
        intros [|j] other Hj Hother; [|apply (Hmin j); [lia | done]].
        injection Hother as <-. by apply has_id_false.
      * intros ([|i] & Hi & Hp & Hmin).
        -- injection Hi as ->. apply has_id_false in Hx. done.
        -- exists i. split; [done|]. split; [done|].
           intros j other Hj Hother. apply (Hmin (S j) other); [lia | done].
Qed.

(** X3.  GET /api/products/<id> answers with the first product of the
    array whose [id] is the text of the path segment (200), or with the
    404 error "Product not found" when no product has it; whatever the
    segment is, and without changing the array. *)
Theorem get_by_id (req : request) (e : env) (st : store) (id : string) :
  method req = GET ->
  path req = ["api"; "products"; id] ->
  id <> "" ->
  (exists p i,
     serve req e st = ({| status := 200; sent := JsonProduct p |}, st) /\
     st !! i = Some p /\ is_called id p /\
     forall j other, (j < i)%nat -> st !! j = Some other -> ~ is_called id other) \/
  (serve req e st = (not_found e, st) /\
   forall p, p ∈ st -> ~ is_called id p).
Proof.
  intros Hm Hp Hid. rewrite (serve_get_three_segments req e st id Hm Hp Hid).
  destruct (find_product id st) as [p|] eqn:Hfind.
  - left. apply find_product_some in Hfind as (i & Hi & Hcalled & Hmin).
    by exists p, i.
  - right. split; [done|]. by apply find_product_none.
Qed.

Lemma get_by_id_witness :
  (exists p i,
     serve (get ["api"; "products"; "u2"] no_query) an_env initial
     = ({| status := 200; sent := JsonProduct p |}, initial) /\
     initial !! i = Some p /\ is_called "u2" p /\
     forall j other, (j < i)%nat -> initial !! j = Some other -> ~ is_called "u2" other) \/
  (serve (get ["api"; "products"; "u2"] no_query) an_env initial
   = (not_found an_env, initial) /\
   forall p, p ∈ initial -> ~ is_called "u2" p).
Proof.
  apply (get_by_id (get ["api"; "products"; "u2"] no_query) an_env initial "u2").
  - reflexivity.
  - reflexivity.
  - discriminate.
Defined.

(** ** C10: search on products without a description *)




Lemma routed_del id key :
  id <> "" ->
  match_path (api_products ++ [Param]) (path (del id key)) None = Some (Some id).
Proof.
  intros H. unfold api_products. cbn [List.app del path].
  rewrite !match_path_lit. by rewrite match_path_param.
Qed.

(** A DELETE with the valid key runs the delete handler. *)
Lemma serve_del (e : env) (st : store) (id : string) (key : option string) :
  id <> "" ->
  good_key (del id key) e ->
  serve (del id key) e st =
    let st' := List.filter (fun p => negb (has_id id p)) st in
    if Nat.eqb (length st') (length st) then (not_found e, st')
    else ({| status := 204; sent := NoContent |}, st').
Proof.
  intros Hid Hkey.
  assert (Hroute : routed (del id key) DELETE (api_products ++ [Param])).
  { split; [done|]. rewrite routed_del by done. by eexists. }
  destruct (run_delete _ e st Hroute) as (id' & Hid' & Hrun).
  rewrite routed_del in Hid' by done. injection Hid' as <-.
  unfold serve. rewrite Hrun, authenticate_passes by done.
  cbn [run_handlers]. unfold delete_product. cbn [param].
  by destruct (Nat.eqb _ _).
Qed.

Lemma filter_all {A} (f : A -> bool) (l : list A) :
  (forall x, x ∈ l -> f x = true) -> List.filter f l = l.
Proof.
  induction l as [|x l IH]; intros H; cbn; [done|].
  rewrite (H x) by apply list_elem_of_here.
  rewrite IH; [done|]. intros y Hy. apply H. by apply list_elem_of_further.
Qed.

Lemma filter_some_out {A} (f : A -> bool) (l : list A) (x : A) :
  x ∈ l -> f x = false -> (length (List.filter f l) < length l)%nat.
Proof.
  intros Hx Hf. induction Hx as [x l|x y l Hx IH]; cbn.
  - rewrite Hf. pose proof (List.filter_length_le f l). lia.
  - specialize (IH Hf). destruct (f y); cbn; lia.
Qed.

Lemma elem_of_filter_bool {A} (f : A -> bool) (l : list A) (x : A) :
  x ∈ List.filter f l <-> x ∈ l /\ f x = true.
Proof. rewrite !list_elem_of_In. apply List.filter_In. Qed.

(** X4.  DELETE /api/products/<id> with the valid key leaves the array
    filtered, in its order and with every duplicate kept, to the
    products that are not called [id]: all the products called [id]
    are removed when several share the id.  It answers 204 when at
    least one product was removed and the 404 error "Product not
    found", with the array unchanged, when none was. *)
Theorem delete_removes_all (e : env) (st : store) (id : string)
    (key : option string) :
  id <> "" ->
  good_key (del id key) e ->
  (serve (del id key) e st).2 = List.filter (fun p => negb (has_id id p)) st /\
  (forall p, has_id id p = true <-> is_called id p) /\
  ((exists p, p ∈ st /\ is_called id p) ->
   (serve (del id key) e st).1 = {| status := 204; sent := NoContent |}) /\
  ((forall p, p ∈ st -> ~ is_called id p) ->
   serve (del id key) e st = (not_found e, st)).
Proof.
  intros Hid Hkey. rewrite serve_del by done. cbn zeta.
  set (st' := List.filter (fun p => negb (has_id id p)) st).
  split; [by destruct (Nat.eqb _ _)|].
  split; [intros p; apply has_id_is_called|]. split.
  - intros (p & Hp & Hcalled).
    assert (length st' < length st)%nat as Hlt.
    { apply (filter_some_out _ st p Hp). apply negb_false_iff.
      by apply has_id_is_called. }
    destruct (Nat.eqb_spec (length st') (length st)); [lia | done].
  - intros Hnone.
    assert (st' = st) as ->.
    { apply filter_all. intros p Hp. apply negb_true_iff, has_id_false. by apply Hnone. }
    by rewrite Nat.eqb_refl.
Qed.

Lemma delete_removes_all_witness :
  (serve (del "u1" (Some "secret")) an_env initial).2
  = List.filter (fun p => negb (has_id "u1" p)) initial.
Proof.
  refine (proj1 (delete_removes_all an_env initial "u1" (Some "secret") _ _)).
  - discriminate.
  - exists "secret". by repeat split.
Defined.

(** ** The steps of the store *)

(** No chain of handlers of the application ends with [next()]. *)
Lemma chains_end :
  Forall (fun r => forall id req e st,
            (run_handlers (handlers r) id req e st).1 <> Next) app.
Proof.
  unfold app.
  repeat first [apply Forall_nil_2 | apply Forall_cons_2];
    cbn [handlers]; intros id req e st; cbn [run_handlers].
  - done.
  - unfold list_products.
    by destruct (match category (params req) with Some _ => _ | None => _ end).
  - unfold get_product. by destruct (find_product _ _).
  - destruct (authenticate id req e st) as [[] ?]; try done.
    by destruct (validateProduct id req e _) as [[] ?].
  - destruct (authenticate id req e st) as [[] ?]; try done.
    destruct (validateProduct id req e _) as [[] ?]; try done.
    unfold update_product. destruct (findIndex _ _); [|done]. by destruct (_ !! _).
  - destruct (authenticate id req e st) as [[] ?]; try done.
    unfold delete_product. by destruct (Nat.eqb _ _).
  - unfold search_products. destruct (q _); [|done].
    destruct (String.eqb _ _); [done|]. by destruct (filter_js _ _).
  - done.
Qed.

(** So a request is served by the first route that matches it, or by
    none. *)
Lemma run_routes_first (rs : list route) (req : request) (e : env) (st : store) :
  Forall (fun r => forall id req e st,
            (run_handlers (handlers r) id req e st).1 <> Next) rs ->
  run_routes rs req e st = (Next, st) \/
  exists r id, r ∈ rs /\ verb r = method req /\
    match_path (pattern r) (path req) None = Some id /\
    run_routes rs req e st = run_handlers (handlers r) id req e st.
Proof.
  induction 1 as [|r rs Hr _ IH]; cbn [run_routes]; [by left|].
  assert (Hrest : run_routes rs req e st = (Next, st) \/
                  exists r' id, r' ∈ r :: rs /\ verb r' = method req /\
                    match_path (pattern r') (path req) None = Some id /\
                    run_routes rs req e st = run_handlers (handlers r') id req e st).
  { destruct IH as [?|(r' & id & ? & ? & ? & ?)]; [by left|].
    right. exists r', id. split; [by apply list_elem_of_further | done]. }
  case_decide as Hv; [|done].
  destruct (match_path _ _ _) as [id|] eqn:Hp; [|done].
  right. exists r, id. split; [apply list_elem_of_here|]. do 2 (split; [done|]).
  specialize (Hr id req e st).
  by destruct (run_handlers (handlers r) id req e st) as [[] st'].
Qed.

Lemma post_chain_step id req e st :
  method req = POST ->
  step req e st
    (run_handlers [authenticate; validateProduct; create_product] id req e st).2.
Proof.
  intros Hm. cbn [run_handlers].
  destruct (authenticate id req e st) as [[] st1] eqn:Ha;
    pose proof (authenticate_store id req e st) as Hst; rewrite Ha in Hst;
    cbn in Hst; subst st1; cbn; try apply step_none.
  destruct (validateProduct id req e st) as [[] st2] eqn:Hv;
    pose proof (validateProduct_store id req e st) as Hst; rewrite Hv in Hst;
    cbn in Hst; subst st2; cbn; try apply step_none.
  apply validateProduct_next in Hv as [Hacc _]. by apply step_create.
Qed.

Lemma put_chain_step id req e st :
  method req = PUT ->
  step req e st
    (run_handlers [authenticate; validateProduct; update_product] id req e st).2.
Proof.
  intros Hm. cbn [run_handlers].
  destruct (authenticate id req e st) as [[] st1] eqn:Ha;
    pose proof (authenticate_store id req e st) as Hst; rewrite Ha in Hst;
    cbn in Hst; subst st1; cbn; try apply step_none.
  destruct (validateProduct id req e st) as [[] st2] eqn:Hv;
    pose proof (validateProduct_store id req e st) as Hst; rewrite Hv in Hst;
    cbn in Hst; subst st2; cbn; try apply step_none.
  apply validateProduct_next in Hv as [Hacc _].
  unfold update_product. destruct (findIndex _ _) as [i|]; [|apply step_none].
  destruct (st !! i) as [old|] eqn:Hold; [|apply step_none].
  by apply step_update.
Qed.

Lemma delete_chain_step id req e st :
  method req = DELETE ->
  step req e st (run_handlers [authenticate; delete_product] id req e st).2.
Proof.
  intros Hm. cbn [run_handlers].
  destruct (authenticate id req e st) as [[] st1] eqn:Ha;
    pose proof (authenticate_store id req e st) as Hst; rewrite Ha in Hst;
    cbn in Hst; subst st1; cbn; try apply step_none.
  pose proof (delete_product_store id req e st) as Hd.
  destruct (delete_product id req e st) as [[] st2]; cbn in *; subst st2;
    by apply step_delete.
Qed.

(** Every request takes the store through one step. *)
Lemma serve_step (req : request) (e : env) (st : store) :
  step req e st (serve req e st).2.
Proof.
  rewrite serve_store.
  destruct (run_routes_first app req e st chains_end)
    as [->|(r & id & Hr & Hv & _ & ->)]; [apply step_none|].
  unfold app in Hr. rewrite !elem_of_cons in Hr.
  destruct Hr as [->|[->|[->|[->|[->|[->|[->|[->|Hr]]]]]]]];
    cbn [verb handlers] in *.
  - apply step_none.
  - cbn [run_handlers]. unfold list_products.
    destruct (match category (params req) with Some _ => _ | None => _ end);
      apply step_none.
  - cbn [run_handlers]. unfold get_product.
    destruct (find_product _ _); apply step_none.
  - by apply post_chain_step.
  - by apply put_chain_step.
  - by apply delete_chain_step.
  - cbn [run_handlers]. unfold search_products.
    destruct (q _); [|apply step_none].
    destruct (String.eqb _ _); [apply step_none|].
    destruct (filter_js _ _); apply step_none.
  - apply step_none.
  - by apply elem_of_nil in Hr.
Qed.

(** X5.  Whatever the request, the [products] array afterwards is the
    array before, or the array with one product appended (a POST whose
    payload passed validation), or with one product replaced by its
    merge with the payload (a PUT whose payload passed validation), or
    without the products of one id (a DELETE): nothing else ever
    changes the store, and no product is ever stored from a payload
    that validation refuses. *)
Theorem serve_steps (req : request) (e : env) (st : store) :
  (serve req e st).2 = st \/
  (method req = POST /\ accepted (body req) /\
   (serve req e st).2 = st ++ [new_product (uuid e) (body req)]) \/
  (method req = PUT /\ accepted (body req) /\
   exists index old,
     st !! index = Some old /\
     (serve req e st).2 = <[index := merged old (body req)]> st) \/
  (method req = DELETE /\
   exists id,
     (serve req e st).2 = List.filter (fun p => negb (has_id id p)) st).
Proof.
  destruct (serve_step req e st) as [| Hm Hacc | i old Hm Hacc Hold | id Hm].
  - by left.
  - right. left. by do 2 (split; [done|]).
  - right. right. left. do 2 (split; [done|]). by exists i, old.
  - right. right. right. split; [done|]. by exists id.
Qed.

(** ** What every stored product has *)

Lemma new_product_other (fresh : string) (payload : product) (k : string) :
  k <> "inStock" -> k <> "id" -> new_product fresh payload !! k = payload !! k.
Proof.
  intros H1 H2. unfold new_product, Js.spread.
  rewrite lookup_insert_ne by done.
  destruct (payload !! k) as [v|] eqn:Hk.
  - by apply lookup_union_Some_l.
  - rewrite lookup_union_r by done. by apply lookup_singleton_ne.
Qed.

Lemma new_product_has_id (fresh : string) (payload : product) :
  is_Some (new_product fresh payload !! "id").
Proof.
  unfold new_product, Js.spread. rewrite lookup_insert_ne by done.
  destruct (payload !! "id") as [v|] eqn:Hk.
  - exists v. by apply lookup_union_Some_l.
  - rewrite lookup_union_r by done. rewrite lookup_singleton_eq. by eexists.
Qed.

Lemma truthy_is_Some (v : option Js.value) : Js.truthy v = true -> is_Some v.
Proof. destruct v; [by eexists | done]. Qed.

Lemma kept_new_product (fresh : string) (payload : product) :
  accepted payload -> kept (new_product fresh payload).
Proof.
  intros (Hn & Hc & n & Hp & Hpos). split; [|apply new_product_has_id].
  unfold accepted. rewrite !new_product_other by done. eauto 6.
Qed.

Lemma kept_merged (old payload : product) :
  kept old -> accepted payload -> kept (merged old payload).
Proof.
  intros [_ Hid] (Hn & Hc & n & Hp & Hpos). split; [|by rewrite merged_id].
  destruct (truthy_is_Some _ Hn) as [vn Hvn].
  destruct (truthy_is_Some _ Hc) as [vc Hvc].
  unfold accepted.
  rewrite (merged_supplied old payload "name" vn), <- Hvn by done.
  rewrite (merged_supplied old payload "category" vc), <- Hvc by done.
  rewrite (merged_supplied old payload "price" (Js.VNum n)) by done.
  eauto 6.
Qed.

Lemma step_kept req e st st' :
  step req e st st' -> Forall kept st -> Forall kept st'.
Proof.
  intros [| Hm Hacc | i old Hm Hacc Hold | id Hm] Hst.
  - done.
  - apply Forall_app. split; [done|].
    apply Forall_cons_2; [by apply kept_new_product | apply Forall_nil_2].
  - apply Forall_insert; [done|]. apply kept_merged; [|done].
    by apply (Forall_lookup_1 _ _ _ _ Hst Hold).
  - rewrite Forall_forall in Hst. apply Forall_forall.
    intros p [Hp _]%elem_of_filter_bool. by apply Hst.
Qed.

Lemma kept_initial (id1 id2 : string) : Forall kept (products id1 id2).
Proof.
  unfold products.
  repeat apply Forall_cons_2; try apply Forall_nil_2.
  - split; [|by eexists].
    split; [reflexivity|]. split; [reflexivity|].
    exists (Js.Fin (99999 # 100)). split; reflexivity.
  - split; [|by eexists].
    split; [reflexivity|]. split; [reflexivity|].
    exists (Js.Fin (69999 # 100)). split; reflexivity.
Qed.

Lemma serve_all_kept (trace : list (request * env)) (st : store) :
  Forall kept st -> Forall kept (serve_all trace st).
Proof.
  revert st. induction trace as [|[req e] trace IH]; intros st Hst; cbn; [done|].
  apply IH. by apply (step_kept req e st), Hst; apply serve_step.
Qed.

(** X6.  After any sequence of requests served from start-up, every
    product in the array has a truthy name and category, a price that
    is a number above zero, and an [id] property: validation runs
    before every create and update, and neither the merge nor the
    delete can take these away. *)
Theorem stored_products_stay_valid (id1 id2 : string)
    (trace : list (request * env)) :
  Forall kept (serve_all trace (products id1 id2)).
Proof. apply serve_all_kept, kept_initial. Qed.

(** ** The identifiers of the store *)

Lemma ids_filter (f : product -> bool) (st : store) :
  ids (List.filter f st) `sublist_of` ids st.
Proof.
  unfold ids. induction st as [|p st IH]; cbn; [done|].
  destruct (f p); cbn; [by apply sublist_skip | by apply sublist_cons].
Qed.

Lemma ids_merged (st : store) (index : nat) (old payload : product) :
  st !! index = Some old ->
  ids (<[index := merged old payload]> st) = ids st.
Proof.
  intros Hold. unfold ids. rewrite list_fmap_insert, merged_id.
  apply list_insert_id. by rewrite list_lookup_fmap, Hold.
Qed.

(** X7.  A request that is not a POST adds no identifier and changes
    none: the identifiers afterwards are those before, in the same
    order, with some removed; after a PUT they are exactly those
    before, so an update never renames a product, removes one or adds
    one. *)
Theorem only_create_adds_ids (req : request) (e : env) (st : store) :
  method req <> POST ->
  ids (serve req e st).2 `sublist_of` ids st /\
  (method req = PUT -> ids (serve req e st).2 = ids st).
Proof.
  intros Hm.
  destruct (serve_step req e st) as [| Hpost _ | i old Hput _ Hold | id Hdel].
  - done.
  - done.
  - rewrite ids_merged by done. done.
  - split; [apply ids_filter | congruence].
Qed.

Lemma only_create_adds_ids_witness :
  ids (serve (put "u1" (Some "secret") cheaper_laptop) an_env initial).2
    `sublist_of` ids initial /\
  (method (put "u1" (Some "secret") cheaper_laptop) = PUT ->
   ids (serve (put "u1" (Some "secret") cheaper_laptop) an_env initial).2
   = ids initial).
Proof.
  apply (only_create_adds_ids (put "u1" (Some "secret") cheaper_laptop)
           an_env initial).
  discriminate.
Defined.

(** X8.  When the identifiers of the store are distinct, they are still
    distinct after any request, provided that the identifier
    [uuidv4()] generates for it is not in the store and that, if the
    request is a POST, its payload has no [id] property. *)
Theorem ids_stay_distinct (req : request) (e : env) (st : store) :
  NoDup (ids st) ->
  Some (Js.VStr (uuid e)) ∉ ids st ->
  (method req = POST -> body req !! "id" = None) ->
  NoDup (ids (serve req e st).2).
Proof.
  intros Hst Hfresh Hbody.
  destruct (serve_step req e st) as [| Hpost _ | i old Hput _ Hold | id Hdel].
  - done.
  - unfold ids. rewrite fmap_app. cbn [fmap list_fmap].
    rewrite generated_id_is_stored by auto.
    apply NoDup_app. split; [done|]. split; [|apply NoDup_singleton].
    intros x Hx ->%list_elem_of_singleton. done.
  - by rewrite ids_merged.
  - eapply sublist_NoDup; [done | apply ids_filter].
Qed.

Lemma ids_stay_distinct_witness :
  NoDup (ids (serve (post (Some "secret") out_of_stock_desk) an_env initial).2).
Proof.
  assert (ids initial = [Some (Js.VStr "u1"); Some (Js.VStr "u2")]) as Hids
    by reflexivity.
  apply (ids_stay_distinct (post (Some "secret") out_of_stock_desk) an_env initial).
  - rewrite Hids. apply NoDup_cons; split; [|apply NoDup_singleton].
    intros H%list_elem_of_singleton. discriminate H.
  - rewrite Hids. cbn. rewrite !not_elem_of_cons.
    repeat split; [discriminate..|apply not_elem_of_nil].
  - reflexivity.
Defined.

(** ** Create, update and delete, then read *)

Lemma serve_post_accepted (e : env) (st : store) (key : option string)
    (payload : product) :
  good_key (post key payload) e ->
  accepted payload ->
  serve (post key payload) e st
  = ({| status := 201; sent := JsonProduct (new_product (uuid e) payload) |},
     st ++ [new_product (uuid e) payload]).
Proof.
  intros Hkey Hacc.
  destruct (run_post (post key payload) e st (routed_post key payload)) as [id Hrun].
  unfold serve. rewrite Hrun, authenticate_passes by done.
  cbn [run_handlers]. by rewrite validateProduct_accepts.
Qed.

Lemma serve_put_valid (e : env) (st : store) (id : string) (key : option string)
    (payload : product) :
  id <> "" ->
  good_key (put id key payload) e ->
  accepted payload ->
  serve (put id key payload) e st =
    match findIndex id st with
    | Some index =>
        match st !! index with
        | Some old =>
            ({| status := 200; sent := JsonProduct (merged old payload) |},
             <[index := merged old payload]> st)
        | None => (not_found e, st)
        end
    | None => (not_found e, st)
    end.
Proof.
  intros Hid Hkey Hacc.
  assert (Hroute : routed (put id key payload) PUT (api_products ++ [Param])).
  { split; [done|]. rewrite routed_put by done. by eexists. }
  destruct (run_put _ e st Hroute) as (id' & Hid' & Hrun).
  rewrite routed_put in Hid' by done. injection Hid' as <-.
  unfold serve. rewrite Hrun, authenticate_passes by done.
  cbn [run_handlers]. rewrite validateProduct_accepts by done.
  unfold update_product. cbn [param].
  destruct (findIndex id st) as [i|]; [|done]. by destruct (st !! i).
Qed.

Lemma find_product_app_new (id : string) (st : store) (p : product) :
  (forall other, other ∈ st -> ~ is_called id other) ->
  is_called id p ->
  find_product id (st ++ [p]) = Some p.
Proof.
  intros Hst Hp. unfold find_product.
  induction st as [|x st IH]; cbn.
  - by rewrite (proj2 (has_id_is_called id p) Hp).
  - rewrite (proj2 (has_id_false id x)) by (apply Hst, list_elem_of_here).
    apply IH. intros other Hother. by apply Hst, list_elem_of_further.
Qed.

Lemma find_product_insert (id : string) (st : store) (index : nat) (p : product) :
  findIndex id st = Some index ->
  is_called id p ->
  find_product id (<[index := p]> st) = Some p.
Proof.
  intros Hfind Hp. unfold find_product. revert index Hfind.
  induction st as [|x st IH]; intros index; cbn; [done|].
  destruct (has_id id x) eqn:Hx.
  - intros [= <-]. cbn. by rewrite (proj2 (has_id_is_called id p) Hp).
  - destruct (findIndex id st) as [i|]; cbn; [|done].
    intros [= <-]. cbn. rewrite Hx. by apply IH.
Qed.

Lemma find_product_removed (id : string) (st : store) :
  find_product id (List.filter (fun p => negb (has_id id p)) st) = None.
Proof.
  apply find_product_none. intros p [_ Hp]%elem_of_filter_bool.
  by apply has_id_false, negb_true_iff.
Qed.

Lemma findIndex_none (id : string) (st : store) :
  findIndex id st = None <-> forall p, p ∈ st -> ~ is_called id p.
Proof.
  rewrite <- find_product_none. unfold find_product.
  induction st as [|x st IH]; cbn; [done|].
  destruct (has_id id x); [done|].
  destruct (findIndex id st); cbn; [|tauto].
  split; [done|]. intros H. by apply IH in H.
Qed.

(** X9.  A product created with the valid key from an accepted payload
    without [id] is found again under the generated identifier: a GET
    of /api/products/<that id> right after the create answers 200 with
    the very product the create answered with, provided no older
    product has that identifier. *)
Theorem created_is_found (e e' : env) (st : store) (key : option string)
    (payload : product) (qs : query) :
  good_key (post key payload) e ->
  accepted payload ->
  payload !! "id" = None ->
  uuid e <> "" ->
  (forall other, other ∈ st -> ~ is_called (uuid e) other) ->
  (serve (get ["api"; "products"; uuid e] qs) e'
         (serve (post key payload) e st).2).1
  = {| status := 200; sent := JsonProduct (new_product (uuid e) payload) |} /\
  sent (serve (post key payload) e st).1
  = JsonProduct (new_product (uuid e) payload).
Proof.
  intros Hkey Hacc Hid Huuid Hfresh.
  rewrite serve_post_accepted by done. cbn [fst snd sent].
  rewrite (serve_get_three_segments _ e' _ (uuid e)) by done.
  rewrite find_product_app_new; [done | done |].
  by apply generated_id_is_stored.
Qed.

Lemma created_is_found_witness :
  (serve (get ["api"; "products"; "u3"] no_query) an_env
         (serve (post (Some "secret") out_of_stock_desk) an_env initial).2).1
  = {| status := 200; sent := JsonProduct (new_product "u3" out_of_stock_desk) |} /\
  sent (serve (post (Some "secret") out_of_stock_desk) an_env initial).1
  = JsonProduct (new_product "u3" out_of_stock_desk).
Proof.
  apply (created_is_found an_env an_env initial (Some "secret")
           out_of_stock_desk no_query).
  - apply secret_is_good.
  - repeat split. by exists (Js.of_Z 10).
  - reflexivity.
  - discriminate.
  - intros other Hother.
    apply (proj1 (find_product_none "u3" initial)); [reflexivity | done].
Defined.

(** X10.  After an update with the valid key and an accepted payload, a
    GET of the same id answers 200 with the merged product the update
    answered with. *)
Theorem updated_is_found (e e' : env) (st : store) (id : string)
    (key : option string) (payload : product) (qs : query)
    (index : nat) (old : product) :
  id <> "" ->
  good_key (put id key payload) e ->
  accepted payload ->
  findIndex id st = Some index ->
  st !! index = Some old ->
  (serve (get ["api"; "products"; id] qs) e'
         (serve (put id key payload) e st).2).1
  = {| status := 200; sent := JsonProduct (merged old payload) |}.
Proof.
  intros Hid Hkey Hacc Hfind Hold.
  rewrite serve_put_valid by done. rewrite Hfind, Hold. cbn [snd].
  rewrite (serve_get_three_segments _ e' _ id) by done.
  rewrite (find_product_insert id st index); [done | done |].
  unfold is_called. rewrite merged_id.
  destruct (findIndex_lookup id st index Hfind) as (old' & Hold' & Hhas).
  assert (old' = old) as -> by congruence. by apply has_id_lookup.
Qed.

Lemma updated_is_found_witness :
  (serve (get ["api"; "products"; "u1"] no_query) an_env
         (serve (put "u1" (Some "secret") cheaper_laptop) an_env initial).2).1
  = {| status := 200; sent := JsonProduct (merged (laptop "u1") cheaper_laptop) |}.
Proof.
  apply (updated_is_found an_env an_env initial "u1" (Some "secret")
           cheaper_laptop no_query 0 (laptop "u1")).
  - discriminate.
  - apply secret_is_good_put.
  - apply cheaper_laptop_accepted.
  - reflexivity.
  - reflexivity.
Defined.

Lemma serve_del_store (e : env) (st : store) (id : string) (key : option string) :
  id <> "" ->
  good_key (del id key) e ->
  (serve (del id key) e st).2 = List.filter (fun p => negb (has_id id p)) st.
Proof.
  intros Hid Hkey. rewrite serve_del by done. cbn zeta.
  by destruct (Nat.eqb _ _).
Qed.

(** X11.  After a DELETE of an id with the valid key, whether it
    answered 204 or 404, a GET of that id answers the 404 error
    "Product not found". *)
Theorem deleted_is_gone (e e' : env) (st : store) (id : string)
    (key : option string) (qs : query) :
  id <> "" ->
  good_key (del id key) e ->
  (serve (get ["api"; "products"; id] qs) e' (serve (del id key) e st).2).1
  = not_found e'.
Proof.
  intros Hid Hkey. rewrite serve_del_store by done.
  rewrite (serve_get_three_segments _ e' _ id) by done.
  by rewrite find_product_removed.
Qed.

Lemma deleted_is_gone_witness :
  (serve (get ["api"; "products"; "u1"] no_query) an_env
         (serve (del "u1" (Some "secret")) an_env initial).2).1
  = not_found an_env.
Proof.
  apply (deleted_is_gone an_env an_env initial "u1" (Some "secret") no_query).
  - discriminate.
  - exists "secret". by repeat split.
Defined.

(** X12.  An update of an id that no product has, sent with the valid
    key, is answered in the order the handlers are chained: the 400 of
    validation when the payload is refused, and only for an accepted
    payload the 404 error "Product not found"; the array is unchanged
    in both cases. *)
Theorem update_of_unknown_id (e : env) (st : store) (id : string)
    (key : option string) (payload : product) :
  id <> "" ->
  good_key (put id key payload) e ->
  (forall p, p ∈ st -> ~ is_called id p) ->
  (accepted payload -> serve (put id key payload) e st = (not_found e, st)) /\
  (rejected payload ->
   exists m, serve (put id key payload) e st
             = ({| status := 400; sent := JsonError m 400 (now e) |}, st)).
Proof.
  intros Hid Hkey Hnone. split.
  - intros Hacc. rewrite serve_put_valid by done.
    by rewrite (proj2 (findIndex_none id st) Hnone).
  - intros Hrej.
    assert (Hroute : routed (put id key payload) PUT (api_products ++ [Param])).
    { split; [done|]. rewrite routed_put by done. by eexists. }
    destruct (run_put _ e st Hroute) as (id' & _ & Hrun).
    unfold serve. rewrite Hrun, authenticate_passes by done.
    cbn [run_handlers].
    destruct (validateProduct_rejects id' (put id key payload) e st Hrej) as [m ->].
    by exists m.
Qed.

Lemma update_of_unknown_id_witness :
  serve (put "none" (Some "secret") cheaper_laptop) an_env initial
  = (not_found an_env, initial).
Proof.
  refine (proj1 (update_of_unknown_id an_env initial "none" (Some "secret")
                   cheaper_laptop _ _ _) cheaper_laptop_accepted).
  - discriminate.
  - apply secret_is_good_put.
  - apply (proj1 (find_product_none "none" initial)). reflexivity.
Defined.

(** ** The messages of validation *)

(** X13.  [validateProduct] reports the first check that fails, in the
    order of the source: "Name, price and category are required" as
    soon as one of the three is absent or falsy, which includes a
    price of zero; "Price must be a number" for a truthy price of
    another type (a text, [true], an array); "Price must be greater
    than 0" for a number below zero.  The store is untouched. *)
Theorem validation_messages (id : option string) (req : request) (e : env)
    (st : store) :
  (Js.truthy (body req !! "name") = false \/
   Js.truthy (body req !! "price") = false \/
   Js.truthy (body req !! "category") = false ->
   validateProduct id req e st
   = (Fail (ValidationError "Name, price and category are required"), st)) /\
  (body req !! "price" = Some (Js.VNum (Js.of_Z 0)) ->
   validateProduct id req e st
   = (Fail (ValidationError "Name, price and category are required"), st)) /\
  (Js.truthy (body req !! "name") = true ->
   Js.truthy (body req !! "price") = true ->
   Js.truthy (body req !! "category") = true ->
   Js.is_number (body req !! "price") = false ->
   validateProduct id req e st
   = (Fail (ValidationError "Price must be a number"), st)) /\
  (forall n,
   Js.truthy (body req !! "name") = true ->
   Js.truthy (body req !! "category") = true ->
   body req !! "price" = Some (Js.VNum n) ->
   Js.truthy (Some (Js.VNum n)) = true ->
   positive n = false ->
   validateProduct id req e st
   = (Fail (ValidationError "Price must be greater than 0"), st)).
Proof.
  unfold validateProduct. repeat split.
  - intros [-> | [-> | ->]]; cbn; [done | | ].
    + by rewrite orb_true_r.
    + by rewrite orb_true_r.
  - intros ->. cbn. by rewrite orb_true_r.
  - by intros -> -> -> ->.
  - intros n -> -> -> Hn Hpos. rewrite Hn. cbn.
    destruct (positive_le n) as [-> | ->]; [by rewrite Hpos | done].
Qed.

Lemma validation_messages_witness :
  validateProduct None
    (post (Some "secret")
       {[ "name" := Js.VStr "Desk"; "price" := Js.VNum (Js.of_Z 0);
          "category" := Js.VStr "Furniture" ]}) an_env initial
  = (Fail (ValidationError "Name, price and category are required"), initial).
Proof.
  apply (proj1 (proj2 (validation_messages None
    (post (Some "secret")
       {[ "name" := Js.VStr "Desk"; "price" := Js.VNum (Js.of_Z 0);
          "category" := Js.VStr "Furniture" ]}) an_env initial))).
  reflexivity.
Defined.

(** ** A service without a configured key *)

Lemma authenticate_without_secret id req e st :
  API_KEY e = None \/ API_KEY e = Some "" ->
  authenticate id req e st = (Respond unauthorized, st).
Proof.
  unfold authenticate. intros H.
  destruct (x_api_key req) as [k|]; [|done].
  destruct (String.eqb_spec k "") as [->|Hk]; [done|].
  destruct H as [-> | ->]; [done|].
  by destruct (String.eqb_spec k "").
Qed.

(** X14.  When [API_KEY] is not set, or is set to the empty text, every
    request to a mutating route whose body [express.json()] accepts is
    answered 401, whatever key it carries: an absent or empty header is
    refused before the comparison, and no other header equals the
    configuration.  A request whose body [express.json()] refuses is
    answered with the parser's error by the error handling middleware.
    Neither changes the array. *)
Theorem no_secret_no_mutation (p : parsing) (req : request) (e : env) (st : store) :
  API_KEY e = None \/ API_KEY e = Some "" ->
  mutating req ->
  answer p req e st
  = match p with
    | Accepted => (unauthorized, st)
    | Refused code text => (error_handler (BodyError code text) e, st)
    end.
Proof.
  intros Hcfg Hroute. destruct p as [|code text]; [|reflexivity].
  cbn [answer express_json]. unfold serve.
  destruct Hroute as [H|[H|H]].
  - destruct (run_post req e st H) as [id ->].
    cbn [run_handlers]. by rewrite authenticate_without_secret.
  - destruct (run_put req e st H) as (id & _ & ->).
    cbn [run_handlers]. by rewrite authenticate_without_secret.
  - destruct (run_delete req e st H) as (id & _ & ->).
    cbn [run_handlers]. by rewrite authenticate_without_secret.
Qed.

Lemma no_secret_no_mutation_witness :
  answer Accepted (post (Some "") out_of_stock_desk)
         {| API_KEY := Some ""; uuid := "u3"; now := "t" |} initial
  = (unauthorized, initial).
Proof.
  apply (no_secret_no_mutation Accepted (post (Some "") out_of_stock_desk)
           {| API_KEY := Some ""; uuid := "u3"; now := "t" |} initial).
  - right. reflexivity.
  - left. apply routed_post.
Defined.

(** ** Pages *)

(** The data of a page of a list request on a store of text
    categories. *)
Lemma list_data (e : env) (st : store) (c : option string) (pg lm : Z)
    (wanted : option string) :
  Forall text_category st ->
  (0 < pg)%Z ->
  (0 < lm)%Z ->
  page_data (serve (get ["api"; "products"]
                      (list_query c (Some pg) (Some lm) wanted)) e st).1
  = window pg lm (selected c st).
Proof.
  intros Hst Hpg Hlm. rewrite serve_list by done. unfold list_products.
  cbn [params get list_query category page limit fmap option_fmap option_map
       default from_option]. unfold id.
  assert (Hsel : match c with
                 | Some c0 => if String.eqb c0 "" then Ok st
                              else filter_js (category_is c0) st
                 | None => Ok st
                 end = Ok (selected c st)).
  { destruct c as [c0|]; [|done]. cbn.
    destruct (String.eqb c0 ""); [done|]. by apply filter_js_category. }
  rewrite Hsel. unfold page_data. cbn [fst sent].
  by apply slice_window.
Qed.

Lemma windows_concat {A} (l : list A) (lm : Z) (n : nat) :
  (0 < lm)%Z ->
  concat ((fun k => window (Z.of_nat k) lm l) <$> seq 1 n)
  = take (n * Z.to_nat lm) l.
Proof.
  intros Hlm. induction n as [|n IH]; [done|].
  rewrite seq_S, fmap_app, concat_app, IH. cbn [fmap list_fmap concat].
  rewrite app_nil_r. unfold window.
  replace (Z.to_nat ((Z.of_nat (1 + n) - 1) * lm)) with (n * Z.to_nat lm)%nat
    by (replace (Z.of_nat (1 + n) - 1)%Z with (Z.of_nat n) by lia;
        rewrite Z2Nat.inj_mul by lia; by rewrite Nat2Z.id).
  rewrite take_take_drop. f_equal. lia.
Qed.

(** X17.  Paging loses and repeats nothing: for a store whose
    categories are ASCII texts, a category parameter that is absent or
    an ASCII text, and a positive limit, the [data] of the pages 1, 2,
    ..., n of a listing, put end to end, are the products selected by
    the category (without regard to the case of its letters) in store
    order, as soon as n pages of [limit] items hold them all; n*limit
    being below 2^53. *)
Theorem pages_cover_the_listing (e : env) (st : store) (c : option string)
    (lm : Z) (wanted : option string) (n : nat) :
  Forall ascii_category st ->
  ascii_query c ->
  (0 < lm)%Z ->
  Js.safe (Z.of_nat n * lm) ->
  (length (selected c st) <= n * Z.to_nat lm)%nat ->
  concat ((fun k =>
             page_data (serve (get ["api"; "products"]
                                 (list_query c (Some (Z.of_nat k)) (Some lm) wanted))
                              e st).1) <$> seq 1 n)
  = selected c st.
Proof.
  intros Hascii _ Hlm _ Hn.
  assert (Forall text_category st) as Hst.
  { eapply Forall_impl; [exact Hascii|]. intros p (s & Hs & _). by exists s. }
  transitivity (take (n * Z.to_nat lm) (selected c st)); [|by apply take_ge].
  rewrite <- (windows_concat _ lm n) by done. f_equal.
  apply list_fmap_ext. intros i k Hk.
  apply list_data; [done | | done].
  apply lookup_seq in Hk. lia.
Qed.

Lemma pages_cover_the_listing_witness :
  concat ((fun k =>
             page_data (serve (get ["api"; "products"]
                                 (list_query (Some "electronics")
                                    (Some (Z.of_nat k)) (Some 1%Z) None))
                              an_env initial).1) <$> seq 1 2)
  = selected (Some "electronics") initial.
Proof.
  apply (pages_cover_the_listing an_env initial (Some "electronics") 1 None 2).
  - repeat (apply Forall_cons_2; [eexists; split; reflexivity|]). apply Forall_nil_2.
  - reflexivity.
  - reflexivity.
  - reflexivity.
  - assert (length (selected (Some "electronics") initial) = 2%nat) as ->
      by reflexivity.
    cbn. lia.
Defined.

(** X18.  A limit of zero is not refused: for a store of text
    categories and a positive page the answer is 200 with an empty
    [data], and its [totalPages], the quotient by zero that JavaScript
    computes (Infinity or NaN), is written [null] in the body. *)
Theorem zero_limit (e : env) (st : store) (c : option string) (pg : Z)
    (wanted : option string) :
  Forall text_category st ->
  (0 < pg)%Z ->
  exists currentPage totalPages totalItems,
    serve (get ["api"; "products"] (list_query c (Some pg) (Some 0%Z) wanted)) e st
    = ({| status := 200;
          sent := JsonPage [] currentPage totalPages totalItems |}, st) /\
    Js.to_json totalPages = None.
Proof.
  intros Hst Hpg. rewrite serve_list by done. unfold list_products.
  cbn [params get list_query category page limit fmap option_fmap option_map
       default from_option]. unfold id.
  assert (Hsel : match c with
                 | Some c0 => if String.eqb c0 "" then Ok st
                              else filter_js (category_is c0) st
                 | None => Ok st
                 end = Ok (selected c st)).
  { destruct c as [c0|]; [|done]. cbn.
    destruct (String.eqb c0 ""); [done|]. by apply filter_js_category. }
  rewrite Hsel.
  assert (Hdata : forall l : store,
            Js.slice l (Js.mul (Js.sub (Js.of_Z pg) (Js.of_Z 1)) (Js.of_Z 0))
                       (Js.mul (Js.of_Z pg) (Js.of_Z 0)) = []).
  { intros l. unfold Js.slice. rewrite start_index, end_index.
    rewrite !Z.mul_0_r. cbn. by rewrite Nat.sub_diag. }
  rewrite Hdata. eexists _, _, _. split; [reflexivity|].
  by destruct (selected c st).
Qed.

Lemma zero_limit_witness :
  exists currentPage totalPages totalItems,
    serve (get ["api"; "products"] (list_query None (Some 1%Z) (Some 0%Z) None))
          an_env initial
    = ({| status := 200;
          sent := JsonPage [] currentPage totalPages totalItems |}, initial) /\
    Js.to_json totalPages = None.
Proof.
  apply (zero_limit an_env initial None 1 None).
  - repeat (apply Forall_cons_2; [eexists; reflexivity|]). apply Forall_nil_2.
  - reflexivity.
Defined.

Lemma category_is_throws (c : string) (p : product) :
  ~ text_category p -> exists m, category_is c p = Throw (TypeError m).
Proof.
  intros Hp. unfold category_is.
  destruct (p !! "category") as [[| | | s | |]|] eqn:Hc; cbn; try by eexists.
  exfalso. apply Hp. by exists s.
Qed.

Lemma filter_js_category_throws (c : string) (st : store) :
  Exists (fun p => ~ text_category p) st ->
  exists m, filter_js (category_is c) st = Throw (TypeError m).
Proof.
  induction st as [|p st IH]; intros H; [by apply Exists_nil in H|].
  cbn [filter_js].
  destruct (p !! "category") as [[| | | s | |]|] eqn:Hc;
    try (destruct (category_is_throws c p) as [m ->];
         [intros [s Hs]; congruence | by exists m]).
  apply Exists_cons in H as [H|H];
    [exfalso; apply H; by exists s|].
  destruct (IH H) as [m Hm]. exists m.
  rewrite Hm. unfold category_is. by rewrite Hc.
Qed.

(** X19.  Filtering by category takes every stored category for a
    text: once the store holds a product whose category is not a text
    (validation lets a number, [true] or an array through), every
    list request with a non-empty category is answered 500 with the
    message of the TypeError, and the array is unchanged; the requests
    without category are not affected. *)
Theorem category_filter_needs_texts (e : env) (st : store) (c : string)
    (pg lm : option Js.number) (wanted : option string) :
  Exists (fun p => ~ text_category p) st ->
  c <> "" ->
  exists m,
    serve (get ["api"; "products"]
             {| category := Some c; page := pg; limit := lm; q := wanted |}) e st
    = ({| status := 500; sent := JsonError m 500 (now e) |}, st).
Proof.
  intros Hst Hc. rewrite serve_list by done. unfold list_products.
  cbn [params get category].
  destruct (String.eqb_spec c "") as [->|_]; [done|].
  destruct (filter_js_category_throws c st Hst) as [m ->].
  by exists m.
Qed.

Lemma category_filter_needs_texts_witness :
  exists m,
    serve (get ["api"; "products"]
             {| category := Some "tools"; page := None; limit := None; q := None |})
          an_env [<["category" := Js.VNum (Js.of_Z 5)]> (laptop "u1")]
    = ({| status := 500; sent := JsonError m 500 (now an_env) |},
       [<["category" := Js.VNum (Js.of_Z 5)]> (laptop "u1")]).
Proof.
  apply (category_filter_needs_texts an_env
           [<["category" := Js.VNum (Js.of_Z 5)]> (laptop "u1")] "tools" None None None).
  - apply Exists_cons_hd. intros [s Hs]. discriminate Hs.
  - discriminate.
Defined.

(** ** The search and statistics handlers by themselves *)

Lemma name_has_occurs (wanted : string) (p : product) :
  name_has wanted p = true <->
  exists s, p !! "name" = Some (Js.VStr s) /\
            occurs_in (Js.lower wanted) (Js.lower s).
Proof.
  unfold name_has, occurs_in.
  destruct (p !! "name") as [[| | | s | |]|];
    try (split; [done | by intros (s' & Hs' & _)]).
  rewrite includes_spec. split.
  - intros H. by exists s.
  - by intros (s' & [= <-] & H).
Qed.

Lemma description_has_occurs (wanted : string) (p : product) :
  description_has wanted p = true <->
  exists d, p !! "description" = Some (Js.VStr d) /\
            occurs_in (Js.lower wanted) (Js.lower d).
Proof.
  unfold description_has, occurs_in.
  destruct (p !! "description") as [[| | | s | |]|];
    try (split; [done | by intros (s' & Hs' & _)]).
  rewrite includes_spec. split.
  - intros H. by exists s.
  - by intros (s' & [= <-] & H).
Qed.

Lemma described_never_misses (wanted : string) (st : store) :
  Forall described st -> existsb (undescribed_miss wanted) st = false.
Proof.
  induction 1 as [|p st [_ [d Hd]] _ IH]; [done|]. cbn.
  rewrite IH, orb_false_r. unfold undescribed_miss.
  rewrite bool_decide_eq_false_2; [apply andb_false_r | congruence].
Qed.

(** X20.  The handler registered for the search, when it runs on a
    store whose products all have an ASCII text as name and as
    description: with a non-empty ASCII [q] it answers 200 with the
    array filtered, in its order and with every duplicate kept, to the
    products whose name or description contains [q], the case of the
    letters apart, and leaves the array as it is; with [q] missing or
    empty it fails with the validation error "Search query
    required". *)
Theorem search_handler_finds (id : option string) (req : request) (e : env)
    (st : store) :
  Forall ascii_described st ->
  (q (params req) = None \/ q (params req) = Some "" ->
   search_products id req e st
   = (Fail (ValidationError "Search query required"), st)) /\
  (forall wanted,
   q (params req) = Some wanted ->
   wanted <> "" ->
   Js.is_ascii wanted = true ->
   search_products id req e st
   = (Respond {| status := 200;
                 sent := JsonProducts
                           (List.filter (fun p => name_has wanted p
                                                  || description_has wanted p) st) |},
      st) /\
   forall p, name_has wanted p || description_has wanted p = true
             <-> matches wanted p).
Proof.
  intros Hascii.
  assert (Forall described st) as Hst.
  { eapply Forall_impl; [exact Hascii|].
    intros p [(s & Hs & _) (d & Hd & _)]. split; by eexists. }
  split.
  - unfold search_products. by intros [-> | ->].
  - intros wanted Hq Hw _. split.
    + rewrite (search_products_spec id req e st wanted); [| |done|done].
      * by rewrite described_never_misses.
      * eapply Forall_impl; [exact Hst|]. intros p [Hn Hd]. split; [done | by right].
    + intros p. rewrite orb_true_iff.
      by rewrite name_has_occurs, description_has_occurs.
Qed.

Lemma search_handler_finds_witness :
  search_products None (get ["api"; "products"; "search"] no_query) an_env initial
  = (Fail (ValidationError "Search query required"), initial).
Proof.
  refine (proj1 (search_handler_finds None
    (get ["api"; "products"; "search"] no_query) an_env initial _) _).
  - repeat (apply Forall_cons_2;
            [split; eexists; split; reflexivity|]). apply Forall_nil_2.
  - by left.
Defined.

(** X23.  The handler registered for the search reads the description
    of a product only when its name does not contain [q]: on a store
    whose products have an ASCII text as name and an ASCII text or
    nothing as description, with a non-empty ASCII [q], it fails with a
    TypeError, which the error handling middleware answers with 500,
    when some product has no description and a name that does not
    contain [q], the case of the letters apart; and when the name of
    every product without description contains [q], it answers 200
    with the array filtered to the products whose name or description
    contains [q].  The array is unchanged in both cases. *)
Theorem search_handler_reads_descriptions (id : option string) (req : request)
    (e : env) (st : store) (wanted : string) :
  Forall ascii_searchable st ->
  q (params req) = Some wanted ->
  wanted <> "" ->
  Js.is_ascii wanted = true ->
  ((exists p, p ∈ st /\ p !! "description" = None /\ name_has wanted p = false) ->
   exists text,
     search_products id req e st = (Fail (TypeError text), st) /\
     status (error_handler (TypeError text) e) = 500%nat) /\
  ((forall p, p ∈ st -> p !! "description" = None -> name_has wanted p = true) ->
   search_products id req e st
   = (Respond {| status := 200;
                 sent := JsonProducts
                           (List.filter (fun p => name_has wanted p
                                                  || description_has wanted p) st) |},
      st)).
Proof.
  intros Hascii Hq Hw _.
  assert (Forall searchable st) as Hst.
  { eapply Forall_impl; [exact Hascii|].
    intros p [(s & Hs & _) [Hd | (d & Hd & _)]];
      (split; [by eexists|]); [by left | right; by eexists]. }
  rewrite (search_products_spec id req e st wanted) by done.
  split.
  - intros H%undescribed_miss_exists. rewrite H. by eexists.
  - intros H. destruct (existsb _ st) eqn:Hex; [|done].
    apply undescribed_miss_exists in Hex as (p & Hin & Hd & Hn).
    rewrite (H p Hin Hd) in Hn. done.
Qed.

Lemma search_handler_reads_descriptions_witness :
  exists text,
    search_products None
      (get ["api"; "products"; "search"] (search_for (Some "phone")))
      an_env [bare_laptop]
    = (Fail (TypeError text), [bare_laptop]) /\
    status (error_handler (TypeError text) an_env) = 500%nat.
Proof.
  refine (proj1 (search_handler_reads_descriptions None
    (get ["api"; "products"; "search"] (search_for (Some "phone")))
    an_env [bare_laptop] "phone" _ _ _ _) _).
  - apply Forall_cons_2; [|apply Forall_nil_2].
    split; [eexists; split; reflexivity | left; reflexivity].
  - reflexivity.
  - discriminate.
  - reflexivity.
  - exists bare_laptop. split; [apply list_elem_of_here | split; reflexivity].
Defined.

Lemma count_category_lookup (acc : gmap string nat) (p : product) (t s : string) :
  p !! "category" = Some (Js.VStr t) ->
  default 0%nat (count_category acc p !! s)
  = (default 0%nat (acc !! s) + (if has_category s p then 1 else 0))%nat.
Proof.
  intros Hp. unfold count_category, has_category. rewrite Hp. cbn.
  destruct (String.eqb_spec t s) as [->|Hne].
  - rewrite lookup_insert_eq. cbn. lia.
  - rewrite lookup_insert_ne by done. lia.
Qed.

Lemma fold_count_lookup (st : store) (acc : gmap string nat) (s : string) :
  Forall text_category st ->
  default 0%nat (fold_left count_category st acc !! s)
  = (default 0%nat (acc !! s) + length (List.filter (has_category s) st))%nat.
Proof.
  intros Hst. revert acc. induction Hst as [|p st [t Ht] _ IH]; intros acc; cbn.
  - lia.
  - rewrite IH, (count_category_lookup acc p t s Ht).
    destruct (has_category s p); cbn; lia.
Qed.

(** X21.  The handler registered for the statistics, when it runs on a
    store of N products whose categories are texts that name no
    inherited property: it answers 200 with [totalProducts] N, a
    [byCategory] that holds for every category the number of products
    that have exactly that text as category (so the counts sum to N,
    and categories that differ by case are counted apart), and
    [inStock] and [outOfStock] that count the products with a truthy
    and a falsy [inStock] and sum to N; the array is unchanged. *)
Theorem stats_handler_counts (id : option string) (req : request) (e : env)
    (st : store) :
  Forall countable_category st ->
  exists counts available missing,
    product_stats id req e st
    = (Respond {| status := 200;
                  sent := JsonStats (length st) counts available missing |}, st) /\
    (forall s, default 0%nat (counts !! s)
               = length (List.filter (has_category s) st)) /\
    total counts = length st /\
    available = length (List.filter (fun p => Js.truthy (p !! "inStock")) st) /\
    (available + missing)%nat = length st.
Proof.
  intros Hst. eexists _, _, _. split; [reflexivity|].
  split; [|split; [|split]].
  - intros s. rewrite fold_count_lookup.
    + by rewrite lookup_empty.
    + eapply Forall_impl; [done|]. intros p (t & Ht & _). by exists t.
  - rewrite fold_count_total. unfold total. rewrite map_fold_empty. lia.
  - done.
  - apply partition_length.
Qed.

Lemma stats_handler_counts_witness :
  exists counts available missing,
    product_stats None (get ["api"; "products"; "stats"] no_query) an_env initial
    = (Respond {| status := 200;
                  sent := JsonStats (length initial) counts available missing |},
       initial) /\
    (forall s, default 0%nat (counts !! s)
               = length (List.filter (has_category s) initial)) /\
    total counts = length initial /\
    available = length (List.filter (fun p => Js.truthy (p !! "inStock")) initial) /\
    (available + missing)%nat = length initial.
Proof.
  apply (stats_handler_counts None (get ["api"; "products"; "stats"] no_query)
           an_env initial).
  repeat (apply Forall_cons_2;
          [exists "Electronics"; split; [reflexivity|] |]); [| |apply Forall_nil_2].
  - unfold inherited_names. rewrite !not_elem_of_cons.
    repeat split; [discriminate..|apply not_elem_of_nil].
  - unfold inherited_names. rewrite !not_elem_of_cons.
    repeat split; [discriminate..|apply not_elem_of_nil].
Defined.


